(** * Verification model of src/main.py (container-id-cloud-api)

    A shallow embedding of the FastAPI relay service: the file system
    (logs.txt and latest/latest.png), the process-wide flag
    [boxe_wants_image], the HTTP handlers, the logging helper and one tick
    of the background polling loop.  Base64 coding follows CPython's
    [binascii.b2a_base64] and non-strict [binascii.a2b_base64], which back
    [base64.b64encode] and [base64.b64decode]. *)

From Stdlib Require Import ZArith String List Bool.
From stdpp Require Import gmap strings list.
Import ListNotations.

Open Scope Z_scope.

(** ** Python values and exceptions *)

(** Values produced by [await request.json()] and handled by the code
    (JSON floats are not modelled); [PStr] is a [str] held as described
    under Text below, [PBytes] a Python [bytes] object. *)
#[warnings="-register-all"]
Inductive pyval :=
| PNone
| PBool (b : bool)
| PInt (z : Z)
| PStr (s : string)
| PBytes (b : list Byte.byte)
| PList (l : list pyval)
| PDict (d : list (string * pyval)).

(** A raised exception: its class name and [str(e)]. *)
Record exc := PyExc { exc_kind : string; exc_msg : string }.

Inductive result (A : Type) :=
| Ok (a : A)
| Err (e : exc).
Arguments Ok {A} a.
Arguments Err {A} e.

(** Python truthiness, used by ['YES' if boxe_wants_image else 'NO']. *)
Definition truthy (v : pyval) : bool :=
  match v with
  | PNone => false
  | PBool b => b
  | PInt z => negb (z =? 0)
  | PStr s => negb (String.eqb s "")
  | PBytes l | PList l => match l with [] => false | _ => true end
  | PDict d => match d with [] => false | _ => true end
  end.

(** [v == False]: equal to [False] are [False] itself and [0]. *)
Definition eq_False (v : pyval) : bool :=
  match v with
  | PBool false => true
  | PInt 0 => true
  | _ => false
  end.

Fixpoint dict_lookup (d : list (string * pyval)) (k : string) : option pyval :=
  match d with
  | [] => None
  | (k', v) :: d' => if String.eqb k k' then Some v else dict_lookup d' k
  end.

(** [data[k]] *)
Definition py_getitem (data : pyval) (k : string) : result pyval :=
  match data with
  | PDict d =>
      match dict_lookup d k with
      | Some v => Ok v
      | None => Err (PyExc "KeyError" ("'" +:+ k +:+ "'"))
      end
  | PList _ => Err (PyExc "TypeError" "list indices must be integers or slices, not str")
  | PStr _ => Err (PyExc "TypeError" "string indices must be integers")
  | _ => Err (PyExc "TypeError" "object is not subscriptable")
  end.

(** [data.get(k, default)] *)
Definition py_get (data : pyval) (k : string) (default : pyval) : result pyval :=
  match data with
  | PDict d =>
      match dict_lookup d k with
      | Some v => Ok v
      | None => Ok default
      end
  | _ => Err (PyExc "AttributeError" "object has no attribute 'get'")
  end.

Fixpoint Z_digits (fuel : nat) (z : Z) : string :=
  match fuel with
  | O => ""
  | S f =>
      let d := String (Ascii.ascii_of_nat (48 + Z.to_nat (z mod 10))) "" in
      if z <? 10 then d else Z_digits f (z / 10) +:+ d
  end.

Definition Z_to_string (z : Z) : string :=
  if z <? 0 then "-" +:+ Z_digits 64 (- z) else Z_digits 64 z.

(** ** Text

    A Python [str] is held as the generalized UTF-8 (WTF-8) encoding of
    its code points: ASCII text is held as itself, and the lone
    surrogates U+D800..U+DFFF that [json.loads] accepts (["\ud800"]) as
    the bytes ED A0..BF 80..BF.  Text files are opened with the UTF-8
    locale encoding and the "strict" error handler. *)

Definition bZ (b : Byte.byte) : Z := Z.of_N (Byte.to_N b).

(** Storing an int into an [unsigned char] keeps its low 8 bits. *)
Definition byte_of_Z (z : Z) : Byte.byte :=
  match Byte.of_N (Z.to_N (z mod 256)) with
  | Some b => b
  | None => Byte.x00
  end.

Definition is_cont (b : Byte.byte) : bool := (128 <=? bZ b) && (bZ b <? 192).

(** The byte groups of the code points of a str; a byte that does not
    start a complete sequence is a group of its own. *)
Fixpoint utf8_chars (l : list Byte.byte) : list (list Byte.byte) :=
  match l with
  | [] => []
  | b0 :: r =>
      let z := bZ b0 in
      if z <? 192 then [b0] :: utf8_chars r
      else if z <? 224 then
        match r with
        | b1 :: r1 => if is_cont b1 then [b0; b1] :: utf8_chars r1 else [b0] :: utf8_chars r
        | [] => [[b0]]
        end
      else if z <? 240 then
        match r with
        | b1 :: b2 :: r2 =>
            if is_cont b1 && is_cont b2 then [b0; b1; b2] :: utf8_chars r2
            else [b0] :: utf8_chars r
        | _ => [b0] :: utf8_chars r
        end
      else
        match r with
        | b1 :: b2 :: b3 :: r3 =>
            if is_cont b1 && is_cont b2 && is_cont b3 then [b0; b1; b2; b3] :: utf8_chars r3
            else [b0] :: utf8_chars r
        | _ => [b0] :: utf8_chars r
        end
  end.

Definition char_cp (g : list Byte.byte) : Z :=
  match g with
  | [b0] => bZ b0
  | [b0; b1] => Z.lor (Z.shiftl (Z.land (bZ b0) 31) 6) (Z.land (bZ b1) 63)
  | [b0; b1; b2] =>
      Z.lor (Z.shiftl (Z.land (bZ b0) 15) 12)
            (Z.lor (Z.shiftl (Z.land (bZ b1) 63) 6) (Z.land (bZ b2) 63))
  | [b0; b1; b2; b3] =>
      Z.lor (Z.shiftl (Z.land (bZ b0) 7) 18)
            (Z.lor (Z.shiftl (Z.land (bZ b1) 63) 12)
                   (Z.lor (Z.shiftl (Z.land (bZ b2) 63) 6) (Z.land (bZ b3) 63)))
  | _ => 0
  end.

Definition is_surrogate (cp : Z) : bool := (55296 <=? cp) && (cp <=? 57343).

(** A lone surrogate is encoded as ED followed by a byte A0..BF. *)
Fixpoint has_surrogate (l : list Byte.byte) : bool :=
  match l with
  | b0 :: r =>
      match r with
      | b1 :: _ => ((bZ b0 =? 237) && (160 <=? bZ b1) && (bZ b1 <? 192)) || has_surrogate r
      | [] => false
      end
  | [] => false
  end.

(** [s.encode("utf-8")] succeeds. *)
Definition utf8_encodable (s : string) : bool := negb (has_surrogate (list_byte_of_string s)).

(** Lower-case hexadecimal, [n] digits. *)
Definition hex_digit (z : Z) : Byte.byte := byte_of_Z (if z <? 10 then 48 + z else 87 + z).
Definition hex_bytes (n : nat) (z : Z) : list Byte.byte :=
  map (fun i => hex_digit (Z.land (Z.shiftr z (4 * Z.of_nat i)) 15)) (rev (seq 0 n)).

Fixpoint surrogate_run (gs : list (list Byte.byte)) : nat :=
  match gs with
  | g :: r => if is_surrogate (char_cp g) then S (surrogate_run r) else O
  | [] => O
  end.

(** Position (in code points) and code point of the first surrogate, and
    the length of the run of surrogates it starts. *)
Fixpoint first_surrogate (gs : list (list Byte.byte)) (pos : nat) : option (nat * Z * nat) :=
  match gs with
  | [] => None
  | g :: r =>
      if is_surrogate (char_cp g) then Some (pos, char_cp g, surrogate_run gs)
      else first_surrogate r (S pos)
  end.

(** The [UnicodeEncodeError] of the strict UTF-8 encoder, which reports
    the first run of consecutive surrogates. *)
Definition encode_error (l : list Byte.byte) : exc :=
  PyExc "UnicodeEncodeError"
    match first_surrogate (utf8_chars l) 0 with
    | Some (pos, cp, 1%nat) =>
        "'utf-8' codec can't encode character '\u" +:+ string_of_list_byte (hex_bytes 4 cp)
        +:+ "' in position " +:+ Z_to_string (Z.of_nat pos) +:+ ": surrogates not allowed"
    | Some (pos, _, n) =>
        "'utf-8' codec can't encode characters in position " +:+ Z_to_string (Z.of_nat pos)
        +:+ "-" +:+ Z_to_string (Z.of_nat (pos + n - 1)%nat) +:+ ": surrogates not allowed"
    | None => "'utf-8' codec can't encode: surrogates not allowed"
    end.

(** [s.encode("utf-8")] *)
Definition utf8_encode (s : string) : result (list Byte.byte) :=
  let l := list_byte_of_string s in
  if has_surrogate l then Err (encode_error l) else Ok l.

(** The strict UTF-8 decoder: the first malformed sequence, as
    (start, end, reason), positions in bytes. *)
Fixpoint utf8_check (l : list Byte.byte) (pos : nat) : option (nat * nat * string) :=
  match l with
  | [] => None
  | b0 :: r =>
      let z := bZ b0 in
      if z <? 128 then utf8_check r (S pos)
      else if (z <? 194) || (245 <=? z) then Some (pos, S pos, "invalid start byte")
      else if z <? 224 then
        match r with
        | [] => Some (pos, S pos, "unexpected end of data")
        | b1 :: r1 =>
            if is_cont b1 then utf8_check r1 (pos + 2)%nat
            else Some (pos, S pos, "invalid continuation byte")
        end
      else if z <? 240 then
        let lo := if z =? 224 then 160 else 128 in
        let hi := if z =? 237 then 160 else 192 in
        match r with
        | [] => Some (pos, S pos, "unexpected end of data")
        | b1 :: r1 =>
            if (lo <=? bZ b1) && (bZ b1 <? hi) then
              match r1 with
              | [] => Some (pos, (pos + 2)%nat, "unexpected end of data")
              | b2 :: r2 =>
                  if is_cont b2 then utf8_check r2 (pos + 3)%nat
                  else Some (pos, (pos + 2)%nat, "invalid continuation byte")
              end
            else Some (pos, S pos, "invalid continuation byte")
        end
      else
        let lo := if z =? 240 then 144 else 128 in
        let hi := if z =? 244 then 144 else 192 in
        match r with
        | [] => Some (pos, S pos, "unexpected end of data")
        | b1 :: r1 =>
            if (lo <=? bZ b1) && (bZ b1 <? hi) then
              match r1 with
              | [] => Some (pos, (pos + 2)%nat, "unexpected end of data")
              | b2 :: r2 =>
                  if is_cont b2 then
                    match r2 with
                    | [] => Some (pos, (pos + 3)%nat, "unexpected end of data")
                    | b3 :: r3 =>
                        if is_cont b3 then utf8_check r3 (pos + 4)%nat
                        else Some (pos, (pos + 3)%nat, "invalid continuation byte")
                    end
                  else Some (pos, (pos + 2)%nat, "invalid continuation byte")
              end
            else Some (pos, S pos, "invalid continuation byte")
        end
  end.

Definition decode_error (l : list Byte.byte) (start stop : nat) (reason : string) : exc :=
  PyExc "UnicodeDecodeError"
    (if (stop =? S start)%nat then
       "'utf-8' codec can't decode byte 0x"
       +:+ string_of_list_byte (hex_bytes 2 (bZ (nth start l Byte.x00)))
       +:+ " in position " +:+ Z_to_string (Z.of_nat start) +:+ ": " +:+ reason
     else
       "'utf-8' codec can't decode bytes in position " +:+ Z_to_string (Z.of_nat start)
       +:+ "-" +:+ Z_to_string (Z.of_nat (stop - 1)%nat) +:+ ": " +:+ reason).

(** [b.decode("utf-8")]: valid UTF-8 is held as itself. *)
Definition utf8_decode (l : list Byte.byte) : result string :=
  match utf8_check l 0 with
  | None => Ok (string_of_list_byte l)
  | Some (start, stop, reason) => Err (decode_error l start stop reason)
  end.

Definition CR : Ascii.ascii := Ascii.ascii_of_nat 13.
Definition LF : Ascii.ascii := Ascii.ascii_of_nat 10.

(** Universal newlines of text-mode reading ([newline=None]): "\r\n"
    and a lone "\r" are read as "\n". *)
Fixpoint translate_newlines (after_cr : bool) (s : string) : string :=
  match s with
  | EmptyString => EmptyString
  | String c r =>
      if Ascii.eqb c CR then String LF (translate_newlines true r)
      else if Ascii.eqb c LF then
        (if after_cr then translate_newlines false r
         else String LF (translate_newlines false r))
      else String c (translate_newlines false r)
  end.

Definition universal_newlines (s : string) : string := translate_newlines false s.

(** The quote of [repr]: a double quote if the text holds a single
    quote and no double quote, else a single quote. *)
Definition repr_quote (l : list Byte.byte) : Byte.byte :=
  if existsb (fun b => bZ b =? 39) l && negb (existsb (fun b => bZ b =? 34) l)
  then Byte.x22 else Byte.x27.

Definition backslash : Byte.byte := Byte.x5c.

(** One code point of [repr(str)] ([unicode_repr]): the quote and the
    backslash are escaped, \t \n \r by name, other ASCII controls, DEL,
    and the non-printable U+0080..U+00A0 and U+00AD as \xhh, surrogates
    as \uhhhh.  Code points above U+00FF other than surrogates are
    copied (Python also escapes those its Unicode database lists as not
    printable, such as U+2028). *)
Definition repr_char (q : Byte.byte) (g : list Byte.byte) : list Byte.byte :=
  let c := char_cp g in
  match g with
  | [b] =>
      if (c =? bZ q) || (c =? 92) then [backslash; b]
      else if c =? 9 then [backslash; Byte.x74]
      else if c =? 10 then [backslash; Byte.x6e]
      else if c =? 13 then [backslash; Byte.x72]
      else if (c <? 32) || (c =? 127) then backslash :: Byte.x78 :: hex_bytes 2 c
      else [b]
  | _ =>
      if is_surrogate c then backslash :: Byte.x75 :: hex_bytes 4 c
      else if (c <? 161) || (c =? 173) then backslash :: Byte.x78 :: hex_bytes 2 c
      else g
  end.

(** [repr(s)] for a str *)
Definition str_repr (s : string) : string :=
  let l := list_byte_of_string s in
  let q := repr_quote l in
  string_of_list_byte (q :: concat (map (repr_char q) (utf8_chars l)) ++ [q]).

(** One byte of [repr(b)] ([bytes_repr]). *)
Definition repr_byte (q : Byte.byte) (b : Byte.byte) : list Byte.byte :=
  let c := bZ b in
  if (c =? bZ q) || (c =? 92) then [backslash; b]
  else if c =? 9 then [backslash; Byte.x74]
  else if c =? 10 then [backslash; Byte.x6e]
  else if c =? 13 then [backslash; Byte.x72]
  else if (c <? 32) || (127 <=? c) then backslash :: Byte.x78 :: hex_bytes 2 c
  else [b].

(** [repr(b)] for bytes *)
Definition bytes_repr (l : list Byte.byte) : string :=
  let q := repr_quote l in
  string_of_list_byte (Byte.x62 :: q :: concat (map (repr_byte q) l) ++ [q]).

(** [str(v)] as used inside f-strings: a str is itself, other values
    their [repr]. *)
Fixpoint py_repr (v : pyval) : string :=
  match v with
  | PNone => "None"
  | PBool true => "True"
  | PBool false => "False"
  | PInt z => Z_to_string z
  | PStr s => str_repr s
  | PBytes l => bytes_repr l
  | PList l =>
      "[" +:+ (fix go l := match l with
                         | [] => ""
                         | [x] => py_repr x
                         | x :: r => py_repr x +:+ ", " +:+ go r
                         end) l +:+ "]"
  | PDict d =>
      "{" +:+ (fix go d := match d with
                         | [] => ""
                         | [(k, x)] => str_repr k +:+ ": " +:+ py_repr x
                         | (k, x) :: r => str_repr k +:+ ": " +:+ py_repr x +:+ ", " +:+ go r
                         end) d +:+ "}"
  end.

Definition py_str (v : pyval) : string :=
  match v with
  | PStr s => s
  | _ => py_repr v
  end.

(** ** Base64 (CPython binascii) *)

Definition BASE64_PAD : Byte.byte := Byte.x3d.

(** [table_b2a_base64] *)
Definition table_b2a_base64 (v : Z) : Byte.byte :=
  byte_of_Z (if v <? 26 then 65 + v
             else if v <? 52 then 97 + (v - 26)
             else if v <? 62 then 48 + (v - 52)
             else if v =? 62 then 43 else 47).

(** [table_a2b_base64]: [None] stands for the table's "not base64"
    entries (value >= 64). *)
Definition table_a2b_base64 (ch : Byte.byte) : option Z :=
  let c := bZ ch in
  if (65 <=? c) && (c <=? 90) then Some (c - 65)
  else if (97 <=? c) && (c <=? 122) then Some (c - 97 + 26)
  else if (48 <=? c) && (c <=? 57) then Some (c - 48 + 52)
  else if c =? 43 then Some 62
  else if c =? 47 then Some 63
  else None.

(** [binascii.b2a_base64(data, newline=False)] *)
Fixpoint b2a_base64 (bin : list Byte.byte) : list Byte.byte :=
  match bin with
  | b0 :: b1 :: b2 :: rest =>
      let a := bZ b0 in let b := bZ b1 in let c := bZ b2 in
      table_b2a_base64 (Z.shiftr a 2)
      :: table_b2a_base64 (Z.lor (Z.shiftl (Z.land a 3) 4) (Z.shiftr b 4))
      :: table_b2a_base64 (Z.lor (Z.shiftl (Z.land b 15) 2) (Z.shiftr c 6))
      :: table_b2a_base64 (Z.land c 63)
      :: b2a_base64 rest
  | [b0] =>
      let a := bZ b0 in
      [table_b2a_base64 (Z.shiftr a 2);
       table_b2a_base64 (Z.shiftl (Z.land a 3) 4); BASE64_PAD; BASE64_PAD]
  | [b0; b1] =>
      let a := bZ b0 in let b := bZ b1 in
      [table_b2a_base64 (Z.shiftr a 2);
       table_b2a_base64 (Z.lor (Z.shiftl (Z.land a 3) 4) (Z.shiftr b 4));
       table_b2a_base64 (Z.shiftl (Z.land b 15) 2); BASE64_PAD]
  | [] => []
  end.

Definition binascii_Error (msg : string) : exc := PyExc "binascii.Error" msg.

(** The main loop of [binascii.a2b_base64(data, strict_mode=False)]:
    [quad_pos], [leftchar] and [pads] as in the C code, [acc] the output
    written so far (reversed).  A completed pad sequence ends decoding
    ([goto done]); characters outside the alphabet are skipped. *)
Fixpoint a2b_loop (inp : list Byte.byte) (quad_pos leftchar pads : Z)
    (acc : list Byte.byte) : result (list Byte.byte) :=
  match inp with
  | [] =>
      if quad_pos =? 0 then Ok (rev acc)
      else if quad_pos =? 1 then
        Err (binascii_Error
          "Invalid base64-encoded string: number of data characters cannot be 1 more than a multiple of 4")
      else Err (binascii_Error "Incorrect padding")
  | ch :: rest =>
      if Byte.eqb ch BASE64_PAD then
        if (2 <=? quad_pos) && (4 <=? quad_pos + (pads + 1)) then Ok (rev acc)
        else a2b_loop rest quad_pos leftchar
               (if 2 <=? quad_pos then pads + 1 else pads) acc
      else
        match table_a2b_base64 ch with
        | None => a2b_loop rest quad_pos leftchar pads acc
        | Some v =>
            if quad_pos =? 0 then a2b_loop rest 1 v 0 acc
            else if quad_pos =? 1 then
              a2b_loop rest 2 (Z.land v 15) 0
                (byte_of_Z (Z.lor (Z.shiftl leftchar 2) (Z.shiftr v 4)) :: acc)
            else if quad_pos =? 2 then
              a2b_loop rest 3 (Z.land v 3) 0
                (byte_of_Z (Z.lor (Z.shiftl leftchar 4) (Z.shiftr v 2)) :: acc)
            else
              a2b_loop rest 0 0 0
                (byte_of_Z (Z.lor (Z.shiftl leftchar 6) v) :: acc)
        end
  end.

Definition a2b_base64 (inp : list Byte.byte) : result (list Byte.byte) :=
  a2b_loop inp 0 0 0 [].

(** [base64.b64encode(s)] *)
Definition b64encode (s : list Byte.byte) : list Byte.byte := b2a_base64 s.

(** [base64.b64decode(s)] (validate=False): a [str] must be ASCII
    ([_bytes_from_decode_data]), [bytes] are taken as they are, any other
    object is a [TypeError]. *)
Definition b64decode (s : pyval) : result (list Byte.byte) :=
  match s with
  | PStr str =>
      let l := list_byte_of_string str in
      if forallb (fun b => bZ b <? 128) l then a2b_base64 l
      else Err (PyExc "ValueError" "string argument should contain only ASCII characters")
  | PBytes l => a2b_base64 l
  | _ => Err (PyExc "TypeError" "argument should be a bytes-like object or ASCII string")
  end.

Example b64encode_hello :
  b64encode (list_byte_of_string "hello") = list_byte_of_string "aGVsbG8=".
Proof. vm_compute. reflexivity. Qed.

Example b64decode_hello :
  b64decode (PStr "aGVsbG8=") = Ok (list_byte_of_string "hello").
Proof. vm_compute. reflexivity. Qed.

Example b64decode_bangs : b64decode (PStr "!!!!") = Ok [].
Proof. vm_compute. reflexivity. Qed.

(** ** Configuration *)

Definition UPLOAD_DIR : string := "latest".
Definition LOG_FILE : string := "logs.txt".

(** [os.path.join] on POSIX for a relative directory and a file name. *)
Definition os_path_join (a b : string) : string := a +:+ "/" +:+ b.

Definition LATEST_FILE : string := os_path_join UPLOAD_DIR "latest.png".

Definition BOXE_UPLOAD_URL : string := "https://box-e.be/API/UploadImage.php".

(** ** Process state and I/O environment *)

(** Regular files by path, the module global [boxe_wants_image] and the
    lines printed to the console. *)
Record state := mkState {
  files : gmap string (list Byte.byte);
  boxe_wants_image : pyval;
  console : list string
}.

Definition set_files (fs : gmap string (list Byte.byte)) (st : state) : state :=
  mkState fs (boxe_wants_image st) (console st).
Definition set_boxe_wants_image (v : pyval) (st : state) : state :=
  mkState (files st) v (console st).
Definition set_console (c : list string) (st : state) : state :=
  mkState (files st) (boxe_wants_image st) c.

(** [datetime.now()] *)
Record datetime := mkDateTime {
  dt_year : Z; dt_month : Z; dt_day : Z; dt_hour : Z; dt_minute : Z; dt_second : Z
}.

Definition pad2 (z : Z) : string :=
  if (0 <=? z) && (z <? 10) then "0" +:+ Z_to_string z else Z_to_string z.

(** [now.strftime("%Y-%m-%d %H:%M:%S")] (glibc: the year unpadded, the
    other fields on two digits). *)
Definition strftime_log (t : datetime) : string :=
  Z_to_string (dt_year t) +:+ "-" +:+ pad2 (dt_month t) +:+ "-" +:+ pad2 (dt_day t)
  +:+ " " +:+ pad2 (dt_hour t) +:+ ":" +:+ pad2 (dt_minute t) +:+ ":" +:+ pad2 (dt_second t).

(** The clock during one handler run, and which file-system operations
    fail with [OSError].  A write to logs.txt once it is open is taken to
    succeed at the OS level (the disk does not fill up); [img_read_fails]
    stands for latest/latest.png existing but being unreadable (no read
    permission, or not a regular file). *)
Record io_env := mkIo {
  clock : datetime;
  log_write_fails : bool;   (* open(LOG_FILE, "a") *)
  log_read_fails : bool;    (* open(LOG_FILE, "r") / read *)
  img_open_fails : bool;    (* open(LATEST_FILE, "wb") *)
  img_write_fails : bool;   (* f.write(image_bytes) after the open *)
  img_read_fails : bool     (* open(LATEST_FILE, "rb") / read *)
}.

Definition io_ok (now : datetime) : io_env := mkIo now false false false false false.

Definition OSError (what : string) : exc := PyExc "OSError" what.

(** Primitive file updates: [open(p, "wb")] truncates (creating the file),
    a write in append position extends it. *)
Inductive fs_op :=
| Truncate (p : string)
| WriteBytes (p : string) (b : list Byte.byte).

Definition apply_op (fs : gmap string (list Byte.byte)) (o : fs_op)
    : gmap string (list Byte.byte) :=
  match o with
  | Truncate p => <[p := []]> fs
  | WriteBytes p b => <[p := default [] (fs !! p) ++ b]> fs
  end.

(** [with open(p, "wb") as f: f.write(b)]: the sequence of updates. *)
Definition write_image_ops (p : string) (b : list Byte.byte) : list fs_op :=
  [Truncate p; WriteBytes p b].

Definition write_wb (env : io_env) (p : string) (b : list Byte.byte)
    (fs : gmap string (list Byte.byte)) : gmap string (list Byte.byte) * option exc :=
  if img_open_fails env then (fs, Some (OSError "open"))
  else if img_write_fails env then (apply_op fs (Truncate p), Some (OSError "write"))
  else (fold_left apply_op (write_image_ops p b) fs, None).

(** The file systems that follow one another while a sequence of
    updates runs: the one before, and the one after each update. *)
Definition write_prefix_states (fs : gmap string (list Byte.byte)) (ops : list fs_op)
    : list (gmap string (list Byte.byte)) :=
  map (fun k => fold_left apply_op (firstn k ops) fs) (seq 0 (S (length ops))).

(** The successive contents of latest/latest.png while an upload writes
    [b] over it. *)
Definition image_versions (fs : gmap string (list Byte.byte)) (b : list Byte.byte)
    : list (list Byte.byte) :=
  map (fun fs' => default [] (fs' !! LATEST_FILE))
      (write_prefix_states fs (write_image_ops LATEST_FILE b)).

(** A concurrent reader of an open file.  [f.read()] on a file opened
    "rb" is [FileIO.readall]: [read(n)] calls at the current offset
    until one returns nothing.  Each call sees the file as it is at that
    moment, so a schedule gives, call by call, the index of the current
    version in [vers] (never going back in time) and the size [n > 0]
    requested (readall asks for the size [fstat] gave plus one, then for
    growing chunks of at least 8192 bytes).  [None]: the schedule is not
    a finished, well-formed run. *)
Definition read_call (c : list Byte.byte) (pos n : nat) : list Byte.byte :=
  firstn n (skipn pos c).

Fixpoint read_loop (vers : list (list Byte.byte)) (sched : list (nat * nat)) (pos : nat)
    : option (list Byte.byte) :=
  match sched with
  | [] => None
  | (v, n) :: rest =>
      match read_call (nth v vers []) pos n with
      | [] => Some []
      | chunk => option_map (app chunk) (read_loop vers rest (pos + length chunk))
      end
  end.

Fixpoint sched_ok (nvers prev : nat) (sched : list (nat * nat)) : bool :=
  match sched with
  | [] => true
  | (v, n) :: rest =>
      (prev <=? v)%nat && (v <? nvers)%nat && (0 <? n)%nat && sched_ok nvers v rest
  end.

Definition concurrent_read (vers : list (list Byte.byte)) (sched : list (nat * nat))
    : option (list Byte.byte) :=
  if sched_ok (length vers) 0 sched then read_loop vers sched 0 else None.

(** ** log_event *)

Definition log_line (env : io_env) (message : string) : string :=
  "[" +:+ strftime_log (clock env) +:+ "] " +:+ message.

Definition newline : string := String (Ascii.ascii_of_nat 10) "".

(** [log_event(message)]: append to logs.txt, then print.  Nothing is
    caught: a failing open raises to the caller; once [open(LOG_FILE,
    "a")] has created the file, [f.write] encodes the whole line and
    raises [UnicodeEncodeError], writing nothing, if it holds a lone
    surrogate. *)
Definition log_event (env : io_env) (message : string) (st : state)
    : state * option exc :=
  if log_write_fails env then (st, Some (OSError "logs.txt"))
  else
    let line := log_line env message in
    let st0 := set_files (<[LOG_FILE := default [] (files st !! LOG_FILE)]> (files st)) st in
    match utf8_encode (line +:+ newline) with
    | Err e => (st0, Some e)
    | Ok bytes =>
        let st1 := set_files (apply_op (files st0) (WriteBytes LOG_FILE bytes)) st0 in
        (set_console (console st1 ++ [line]) st1, None)
    end.

(** ** Handlers *)

(** What a handler returns: a JSON body with its status code (a plain
    dict is 200), a [FileResponse], a [PlainTextResponse], or a dict
    holding another handler's return value under one key. *)
Inductive response :=
| JSONResp (status_code : Z) (content : pyval)
| FileResp (path : string) (media_type : string)
| TextResp (text : string)
| WrapResp (key : string) (inner : response).

Definition error_body (msg : string) : pyval :=
  PDict [("status", PStr "error"); ("message", PStr msg)].

Definition upload_ok_body : pyval :=
  PDict [("status", PStr "ok"); ("message", PStr "Image successfully received")].

(** The [except Exception as e] clause of [receive_image]. *)
Definition upload_except (env : io_env) (e : exc) (st : state)
    : state * result response :=
  let '(st1, r) := log_event env ("Error during upload: " +:+ exc_msg e) st in
  match r with
  | Some e2 => (st1, Err e2)
  | None => (st1, Ok (JSONResp 200 (error_body (exc_msg e))))
  end.

(** [POST /upload]; [body] is the outcome of [await request.json()]. *)
Definition receive_image (env : io_env) (body : result pyval) (st : state)
    : state * result response :=
  match body with
  | Err e => upload_except env e st
  | Ok data =>
    match py_getitem data "image" with
    | Err e => upload_except env e st
    | Ok image_b64 =>
      match py_get data "filename" (PStr "latest.png") with
      | Err e => upload_except env e st
      | Ok filename =>
        match b64decode image_b64 with
        | Err e => upload_except env e st
        | Ok image_bytes =>
          let '(fs1, w) := write_wb env LATEST_FILE image_bytes (files st) in
          let st1 := set_files fs1 st in
          match w with
          | Some e => upload_except env e st1
          | None =>
            let '(st2, l) := log_event env
                 ("Image received and saved: " +:+ py_str filename) st1 in
            match l with
            | Some e => upload_except env e st2
            | None => (st2, Ok (JSONResp 200 upload_ok_body))
            end
          end
        end
      end
    end
  end.

Definition image_exists (st : state) : bool :=
  match files st !! LATEST_FILE with Some _ => true | None => false end.

(** [GET /check] *)
Definition status (st : state) : result response :=
  Ok (JSONResp 200 (PDict [("status", PStr "running");
                           ("image_available", PBool (image_exists st))])).

(** [GET /get-latest-image]: no try block. *)
Definition get_latest_image (env : io_env) (st : state) : result response :=
  match files st !! LATEST_FILE with
  | None => Ok (JSONResp 404 (error_body "No image available"))
  | Some content =>
      if img_read_fails env then Err (OSError "latest/latest.png")
      else Ok (JSONResp 200 (PDict [("status", PStr "ok");
                                    ("filename", PStr "latest.png");
                                    ("image_base64", PBytes (b64encode content))]))
  end.

(** [GET /view-image] *)
Definition view_image (st : state) : result response :=
  if image_exists st then Ok (FileResp LATEST_FILE "image/png")
  else Ok (JSONResp 404 (error_body "No image available")).

(** Sending a [FileResponse] (Starlette), for the file responses: the
    path is [os.stat]ed ([RuntimeError] if it is missing or not a
    regular file), then the file is opened and streamed in chunks, so a
    file that cannot be read raises while the response is sent and the
    request fails. *)
Definition served_bytes (env : io_env) (st : state) (r : response)
    : option (result (list Byte.byte)) :=
  match r with
  | FileResp p _ =>
      Some match files st !! p with
           | None => Err (PyExc "RuntimeError" ("File at path " +:+ p +:+ " does not exist."))
           | Some c => if img_read_fails env then Err (OSError p) else Ok c
           end
  | _ => None
  end.

(** [GET /view-logs]: no try block.  [open(LOG_FILE, "r")] decodes
    UTF-8 strictly and reads with universal newlines. *)
Definition view_logs (env : io_env) (st : state) : result response :=
  match files st !! LOG_FILE with
  | Some content =>
      if log_read_fails env then Err (OSError "logs.txt")
      else match utf8_decode content with
           | Err e => Err e
           | Ok text => Ok (TextResp (universal_newlines text))
           end
  | None => Ok (TextResp "No logs available.")
  end.

(** The [except] clause of [receive_demand]. *)
Definition demand_except (env : io_env) (e : exc) (st : state)
    : state * result response :=
  let '(st1, r) := log_event env ("Error in /receive-demand: " +:+ exc_msg e) st in
  match r with
  | Some e2 => (st1, Err e2)
  | None => (st1, Ok (JSONResp 200 (error_body (exc_msg e))))
  end.

(** [POST /receive-demand] *)
Definition receive_demand (env : io_env) (body : result pyval) (st : state)
    : state * result response :=
  match body with
  | Err e => demand_except env e st
  | Ok data =>
    match py_get data "demand" (PBool false) with
    | Err e => demand_except env e st
    | Ok v =>
      let st1 := set_boxe_wants_image v st in
      let '(st2, l) := log_event env
           ("Box-E demand received: " +:+ (if truthy v then "YES" else "NO")) st1 in
      match l with
      | Some e => demand_except env e st2
      | None =>
        match get_latest_image env st2 with
        | Err e => demand_except env e st2
        | Ok r => (st2, Ok (WrapResp "imgResult" r))
        end
      end
    end
  end.

(** [check_demand_from_boxe()] *)
Definition check_demand_from_boxe (st : state) : pyval := boxe_wants_image st.

(** ** The polling loop *)

(** An outbound HTTP request issued by the loop. *)
Record post_call := mkPost { post_url : string; post_json : pyval }.

(** The statement before [while True:]. *)
Definition polling_start (env : io_env) (st : state) : state * option exc :=
  log_event env "Polling loop started." st.

(** One iteration of the [while True:] body: when the flag [== False] it
    logs; [time.sleep] has no observable effect here.  The body contains
    no request call ([BOXE_UPLOAD_URL] is never used), so the list of
    outbound calls of a tick is empty. *)
Definition polling_tick (env : io_env) (st : state)
    : state * list post_call * option exc :=
  if eq_False (check_demand_from_boxe st) then
    let '(st1, e) := log_event env "Box-E is not requesting an image." st in
    (st1, [], e)
  else (st, [], None).

(** A freshly deployed process: no files, the flag [False]. *)
Definition init_state : state := mkState ∅ (PBool false) [].


(** * Proofs *)

(** ** Base64 round trip *)

Module Base64Facts.

Definition zrange (n : nat) : list Z := map Z.of_nat (seq 0 n).

Lemma in_zrange (n : nat) (z : Z) : 0 <= z < Z.of_nat n -> In z (zrange n).
Proof.
  intros H. unfold zrange. apply in_map_iff. exists (Z.to_nat z).
  split; [lia|]. apply in_seq. lia.
Qed.

Lemma check1 (n : nat) (f : Z -> bool) :
  forallb f (zrange n) = true -> forall a, 0 <= a < Z.of_nat n -> f a = true.
Proof.
  intros H a Ha. rewrite forallb_forall in H. apply H, in_zrange, Ha.
Qed.

Lemma check2 (f : Z -> Z -> bool) :
  forallb (fun a => forallb (f a) (zrange 256)) (zrange 256) = true ->
  forall a b, 0 <= a < 256 -> 0 <= b < 256 -> f a b = true.
Proof.
  intros H a b Ha Hb.
  pose proof (check1 256 _ H a Ha) as H1.
  exact (check1 256 _ H1 b Hb).
Qed.

Lemma bZ_range (b : Byte.byte) : 0 <= bZ b < 256.
Proof. unfold bZ. pose proof (Byte.to_N_bounded b). lia. Qed.

Lemma byte_of_Z_eq (x : Z) (b : Byte.byte) : x mod 256 = bZ b -> byte_of_Z x = b.
Proof.
  intros H. unfold byte_of_Z. rewrite H. unfold bZ.
  rewrite N2Z.id, Byte.of_to_N. reflexivity.
Qed.

(** Every sextet's character decodes back, is not the pad and is ASCII. *)
Definition table_ok (v : Z) : bool :=
  match table_a2b_base64 (table_b2a_base64 v) with
  | Some w => Z.eqb w v
  | None => false
  end && negb (Byte.eqb (table_b2a_base64 v) BASE64_PAD)
      && (bZ (table_b2a_base64 v) <? 128).

Lemma table_ok_all (v : Z) : 0 <= v < 64 -> table_ok v = true.
Proof. apply (check1 64). vm_compute. reflexivity. Qed.

Lemma table_roundtrip (v : Z) :
  0 <= v < 64 -> table_a2b_base64 (table_b2a_base64 v) = Some v.
Proof.
  intros H. pose proof (table_ok_all v H) as T. unfold table_ok in T.
  destruct (table_a2b_base64 (table_b2a_base64 v)) as [w|]; [|discriminate].
  apply andb_true_iff in T as [T _]. apply andb_true_iff in T as [T _].
  apply Z.eqb_eq in T. subst. reflexivity.
Qed.

Lemma table_not_pad (v : Z) :
  0 <= v < 64 -> Byte.eqb (table_b2a_base64 v) BASE64_PAD = false.
Proof.
  intros H. pose proof (table_ok_all v H) as T. unfold table_ok in T.
  apply andb_true_iff in T as [T _]. apply andb_true_iff in T as [_ T].
  apply negb_true_iff in T. exact T.
Qed.

Lemma table_ascii (v : Z) : 0 <= v < 64 -> bZ (table_b2a_base64 v) < 128.
Proof.
  intros H. pose proof (table_ok_all v H) as T. unfold table_ok in T.
  apply andb_true_iff in T as [_ T]. apply Z.ltb_lt in T. exact T.
Qed.

(** The sextets of [b2a_base64]. *)
Definition s1 (a : Z) : Z := Z.shiftr a 2.
Definition s2 (a b : Z) : Z := Z.lor (Z.shiftl (Z.land a 3) 4) (Z.shiftr b 4).
Definition s3 (b c : Z) : Z := Z.lor (Z.shiftl (Z.land b 15) 2) (Z.shiftr c 6).
Definition s4 (c : Z) : Z := Z.land c 63.
Definition s2' (a : Z) : Z := Z.shiftl (Z.land a 3) 4.
Definition s3' (b : Z) : Z := Z.shiftl (Z.land b 15) 2.

Ltac brute1 := let a := fresh in let Ha := fresh in
  intros Ha; apply Z.eqb_eq;
  match goal with a : Z |- _ => revert a Ha end;
  apply (check1 256); vm_compute; reflexivity.

Ltac brute2 := let Ha := fresh in let Hb := fresh in
  intros Ha Hb; apply Z.eqb_eq;
  match goal with a : Z, b : Z |- _ => revert a b Ha Hb end;
  apply check2; vm_compute; reflexivity.

Lemma s1_range (a : Z) : 0 <= a < 256 -> 0 <= s1 a < 64.
Proof.
  intros Ha. unfold s1. rewrite Z.shiftr_div_pow2 by lia.
  change (2 ^ 2) with 4. split; [apply Z.div_pos|apply Z.div_lt_upper_bound]; lia.
Qed.

Lemma s4_range (c : Z) : 0 <= c < 256 -> 0 <= s4 c < 64.
Proof.
  intros Hc. unfold s4. change 63 with (Z.ones 6). rewrite Z.land_ones by lia.
  apply Z.mod_pos_bound. lia.
Qed.

Definition in64 (x : Z) : bool := (0 <=? x) && (x <? 64).

Lemma in64_spec (x : Z) : in64 x = true -> 0 <= x < 64.
Proof. unfold in64. rewrite andb_true_iff, Z.leb_le, Z.ltb_lt. tauto. Qed.

Lemma s2_range (a b : Z) : 0 <= a < 256 -> 0 <= b < 256 -> 0 <= s2 a b < 64.
Proof.
  intros Ha Hb. apply in64_spec.
  apply (check2 (fun a b => in64 (s2 a b)) ltac:(vm_compute; reflexivity) a b Ha Hb).
Qed.

Lemma s3_range (b c : Z) : 0 <= b < 256 -> 0 <= c < 256 -> 0 <= s3 b c < 64.
Proof.
  intros Hb Hc. apply in64_spec.
  apply (check2 (fun b c => in64 (s3 b c)) ltac:(vm_compute; reflexivity) b c Hb Hc).
Qed.

Lemma s2'_range (a : Z) : 0 <= a < 256 -> 0 <= s2' a < 64.
Proof.
  intros Ha. apply in64_spec.
  apply (check1 256 (fun a => in64 (s2' a)) ltac:(vm_compute; reflexivity) a Ha).
Qed.

Lemma s3'_range (b : Z) : 0 <= b < 256 -> 0 <= s3' b < 64.
Proof.
  intros Hb. apply in64_spec.
  apply (check1 256 (fun b => in64 (s3' b)) ltac:(vm_compute; reflexivity) b Hb).
Qed.

(** The three output bytes of a full quad. *)
Lemma out1_ok (a b : Z) : 0 <= a < 256 -> 0 <= b < 256 ->
  Z.lor (Z.shiftl (s1 a) 2) (Z.shiftr (s2 a b) 4) mod 256 = a.
Proof. brute2. Qed.

Lemma s2_low (a b : Z) : 0 <= a < 256 -> 0 <= b < 256 ->
  Z.land (s2 a b) 15 = Z.shiftr b 4.
Proof. brute2. Qed.

Lemma s3_high (b c : Z) : 0 <= b < 256 -> 0 <= c < 256 ->
  Z.shiftr (s3 b c) 2 = Z.land b 15.
Proof. brute2. Qed.

Lemma s3_low (b c : Z) : 0 <= b < 256 -> 0 <= c < 256 ->
  Z.land (s3 b c) 3 = Z.shiftr c 6.
Proof. brute2. Qed.

Lemma out2_ok (b : Z) : 0 <= b < 256 ->
  Z.lor (Z.shiftl (Z.shiftr b 4) 4) (Z.shiftr (Z.shiftl (Z.land b 15) 2) 2) mod 256 = b.
Proof. brute1. Qed.

Lemma out2_ok' (b c : Z) : 0 <= b < 256 -> 0 <= c < 256 ->
  Z.lor (Z.shiftl (Z.shiftr b 4) 4) (Z.shiftr (s3 b c) 2) mod 256 = b.
Proof. brute2. Qed.

Lemma out3_ok (c : Z) : 0 <= c < 256 ->
  Z.lor (Z.shiftl (Z.shiftr c 6) 6) (s4 c) mod 256 = c.
Proof. brute1. Qed.

Lemma out1_tail (a : Z) : 0 <= a < 256 ->
  Z.lor (Z.shiftl (s1 a) 2) (Z.shiftr (s2' a) 4) mod 256 = a.
Proof. brute1. Qed.

Lemma s2'_low (a : Z) : 0 <= a < 256 -> Z.land (s2' a) 15 = 0.
Proof. brute1. Qed.


Lemma a2b_quad (b0 b1 b2 : Byte.byte) (rest : list Byte.byte) (lc p : Z)
    (acc : list Byte.byte) :
  a2b_loop (b2a_base64 (b0 :: b1 :: b2 :: rest)) 0 lc p acc
  = a2b_loop (b2a_base64 rest) 0 0 0 (b2 :: b1 :: b0 :: acc).
Proof.
  pose proof (bZ_range b0) as R0. pose proof (bZ_range b1) as R1.
  pose proof (bZ_range b2) as R2.
  cbn [b2a_base64].
  change (Z.shiftr (bZ b0) 2) with (s1 (bZ b0)).
  change (Z.lor (Z.shiftl (Z.land (bZ b0) 3) 4) (Z.shiftr (bZ b1) 4)) with (s2 (bZ b0) (bZ b1)).
  change (Z.lor (Z.shiftl (Z.land (bZ b1) 15) 2) (Z.shiftr (bZ b2) 6)) with (s3 (bZ b1) (bZ b2)).
  change (Z.land (bZ b2) 63) with (s4 (bZ b2)).
  pose proof (s1_range _ R0) as T1. pose proof (s2_range _ _ R0 R1) as T2.
  pose proof (s3_range _ _ R1 R2) as T3. pose proof (s4_range _ R2) as T4.
  cbn [a2b_loop].
  rewrite (table_not_pad _ T1), (table_roundtrip _ T1). cbn [Z.eqb].
  rewrite (table_not_pad _ T2), (table_roundtrip _ T2). cbn [Z.eqb].
  rewrite (table_not_pad _ T3), (table_roundtrip _ T3). cbn [Z.eqb].
  rewrite (table_not_pad _ T4), (table_roundtrip _ T4). cbn [Z.eqb].
  rewrite (s2_low _ _ R0 R1), (s3_low _ _ R1 R2).
  rewrite (byte_of_Z_eq _ b0 (out1_ok _ _ R0 R1)).
  rewrite (byte_of_Z_eq _ b1 (out2_ok' _ _ R1 R2)).
  rewrite (byte_of_Z_eq _ b2 (out3_ok _ R2)).
  reflexivity.
Qed.

Lemma a2b_one (b0 : Byte.byte) (lc p : Z) (acc : list Byte.byte) :
  a2b_loop (b2a_base64 [b0]) 0 lc p acc = Ok (rev acc ++ [b0]).
Proof.
  pose proof (bZ_range b0) as R0.
  cbn [b2a_base64].
  change (Z.shiftr (bZ b0) 2) with (s1 (bZ b0)).
  change (Z.shiftl (Z.land (bZ b0) 3) 4) with (s2' (bZ b0)).
  pose proof (s1_range _ R0) as T1. pose proof (s2'_range _ R0) as T2.
  cbn [a2b_loop].
  rewrite (table_not_pad _ T1), (table_roundtrip _ T1). cbn [Z.eqb].
  rewrite (table_not_pad _ T2), (table_roundtrip _ T2). cbn [Z.eqb].
  rewrite (byte_of_Z_eq _ b0 (out1_tail _ R0)).
  reflexivity.
Qed.

Lemma a2b_two (b0 b1 : Byte.byte) (lc p : Z) (acc : list Byte.byte) :
  a2b_loop (b2a_base64 [b0; b1]) 0 lc p acc = Ok (rev acc ++ [b0; b1]).
Proof.
  pose proof (bZ_range b0) as R0. pose proof (bZ_range b1) as R1.
  cbn [b2a_base64].
  change (Z.shiftr (bZ b0) 2) with (s1 (bZ b0)).
  change (Z.lor (Z.shiftl (Z.land (bZ b0) 3) 4) (Z.shiftr (bZ b1) 4)) with (s2 (bZ b0) (bZ b1)).
  change (Z.shiftl (Z.land (bZ b1) 15) 2) with (s3' (bZ b1)).
  pose proof (s1_range _ R0) as T1. pose proof (s2_range _ _ R0 R1) as T2.
  pose proof (s3'_range _ R1) as T3.
  cbn [a2b_loop].
  rewrite (table_not_pad _ T1), (table_roundtrip _ T1). cbn [Z.eqb].
  rewrite (table_not_pad _ T2), (table_roundtrip _ T2). cbn [Z.eqb].
  rewrite (table_not_pad _ T3), (table_roundtrip _ T3). cbn [Z.eqb].
  rewrite (s2_low _ _ R0 R1).
  rewrite (byte_of_Z_eq _ b0 (out1_ok _ _ R0 R1)).
  unfold s3'. rewrite (byte_of_Z_eq _ b1 (out2_ok _ R1)).
  simpl. rewrite <- app_assoc. reflexivity.
Qed.

Lemma a2b_b2a_loop (n : nat) (l : list Byte.byte) :
  (length l <= n)%nat ->
  forall (acc : list Byte.byte) (lc p : Z),
    a2b_loop (b2a_base64 l) 0 lc p acc = Ok (rev acc ++ l).
Proof.
  revert l. induction n as [|n IH]; intros l Hl acc lc p.
  - destruct l; [|simpl in Hl; lia]. simpl. rewrite app_nil_r. reflexivity.
  - destruct l as [|b0 [|b1 [|b2 rest]]].
    + simpl. rewrite app_nil_r. reflexivity.
    + apply a2b_one.
    + apply a2b_two.
    + rewrite a2b_quad, IH by (simpl in Hl; lia).
      simpl. rewrite <- !app_assoc. reflexivity.
Qed.

(** [b64decode(b64encode(B)) == B] *)
Lemma a2b_b2a (l : list Byte.byte) : a2b_base64 (b2a_base64 l) = Ok l.
Proof. unfold a2b_base64. rewrite (a2b_b2a_loop (length l)) by lia. reflexivity. Qed.

Lemma table_ascii_b (v : Z) : 0 <= v < 64 -> (bZ (table_b2a_base64 v) <? 128) = true.
Proof. intros H. apply Z.ltb_lt, table_ascii, H. Qed.

Lemma b2a_ascii (l : list Byte.byte) :
  forallb (fun b => bZ b <? 128) (b2a_base64 l) = true.
Proof.
  induction l as [[|b0 [|b1 [|b2 rest]]] IH] using (induction_ltof1 _ (@length _));
    unfold ltof in IH.
  - reflexivity.
  - pose proof (bZ_range b0) as R0. cbn [b2a_base64 forallb].
    change (Z.shiftr (bZ b0) 2) with (s1 (bZ b0)).
    change (Z.shiftl (Z.land (bZ b0) 3) 4) with (s2' (bZ b0)).
    rewrite (table_ascii_b _ (s1_range _ R0)), (table_ascii_b _ (s2'_range _ R0)).
    reflexivity.
  - pose proof (bZ_range b0) as R0. pose proof (bZ_range b1) as R1.
    cbn [b2a_base64 forallb].
    change (Z.shiftr (bZ b0) 2) with (s1 (bZ b0)).
    change (Z.lor (Z.shiftl (Z.land (bZ b0) 3) 4) (Z.shiftr (bZ b1) 4)) with (s2 (bZ b0) (bZ b1)).
    change (Z.shiftl (Z.land (bZ b1) 15) 2) with (s3' (bZ b1)).
    rewrite (table_ascii_b _ (s1_range _ R0)), (table_ascii_b _ (s2_range _ _ R0 R1)),
      (table_ascii_b _ (s3'_range _ R1)).
    reflexivity.
  - pose proof (bZ_range b0) as R0. pose proof (bZ_range b1) as R1.
    pose proof (bZ_range b2) as R2. cbn [b2a_base64 forallb].
    change (Z.shiftr (bZ b0) 2) with (s1 (bZ b0)).
    change (Z.lor (Z.shiftl (Z.land (bZ b0) 3) 4) (Z.shiftr (bZ b1) 4)) with (s2 (bZ b0) (bZ b1)).
    change (Z.lor (Z.shiftl (Z.land (bZ b1) 15) 2) (Z.shiftr (bZ b2) 6)) with (s3 (bZ b1) (bZ b2)).
    change (Z.land (bZ b2) 63) with (s4 (bZ b2)).
    rewrite (table_ascii_b _ (s1_range _ R0)), (table_ascii_b _ (s2_range _ _ R0 R1)),
      (table_ascii_b _ (s3_range _ _ R1 R2)), (table_ascii_b _ (s4_range _ R2)).
    apply IH. simpl. lia.
Qed.

Lemma b64decode_bytes_b64encode (l : list Byte.byte) :
  b64decode (PBytes (b64encode l)) = Ok l.
Proof. apply a2b_b2a. Qed.

Lemma b64decode_str_b64encode (l : list Byte.byte) :
  b64decode (PStr (string_of_list_byte (b64encode l))) = Ok l.
Proof.
  unfold b64decode. rewrite list_byte_of_string_of_list_byte.
  unfold b64encode. rewrite b2a_ascii. apply a2b_b2a.
Qed.

End Base64Facts.

(** ** Text facts *)

Module TextFacts.

Definition ascii_bytes (l : list Byte.byte) : bool := forallb (fun b => bZ b <? 128) l.

Lemma list_byte_of_string_app (a b : string) :
  list_byte_of_string (a +:+ b) = list_byte_of_string a ++ list_byte_of_string b.
Proof.
  induction a as [|c a IH]; [reflexivity|].
  change (Ascii.byte_of_ascii c :: list_byte_of_string (a +:+ b)
          = Ascii.byte_of_ascii c :: list_byte_of_string a ++ list_byte_of_string b).
  rewrite IH. reflexivity.
Qed.

Lemma ascii_bytes_app (a b : list Byte.byte) :
  ascii_bytes (a ++ b) = ascii_bytes a && ascii_bytes b.
Proof. unfold ascii_bytes. apply forallb_app. Qed.

Lemma ascii_str_app (a b : string) :
  ascii_bytes (list_byte_of_string (a +:+ b))
  = ascii_bytes (list_byte_of_string a) && ascii_bytes (list_byte_of_string b).
Proof. rewrite list_byte_of_string_app. apply ascii_bytes_app. Qed.

Lemma has_surrogate_ascii (l : list Byte.byte) :
  ascii_bytes l = true -> has_surrogate l = false.
Proof.
  induction l as [|b l IH]; [reflexivity|].
  cbn [ascii_bytes forallb]. intros H. apply andb_prop in H as [Hb Hl].
  apply Z.ltb_lt in Hb.
  destruct l as [|b1 l]; [reflexivity|].
  change (((bZ b =? 237) && (160 <=? bZ b1) && (bZ b1 <? 192)) || has_surrogate (b1 :: l)
          = false).
  rewrite IH by exact Hl.
  replace (bZ b =? 237) with false by (symmetry; apply Z.eqb_neq; lia). reflexivity.
Qed.

Lemma has_surrogate_app_l (a b : list Byte.byte) :
  ascii_bytes a = true -> has_surrogate (a ++ b) = has_surrogate b.
Proof.
  induction a as [|x a IH]; [reflexivity|].
  cbn [ascii_bytes forallb]. intros H. apply andb_prop in H as [Hx Ha].
  apply Z.ltb_lt in Hx.
  cbn [app]. destruct (a ++ b) as [|y r] eqn:E.
  - destruct a; [|discriminate]. cbn in E. subst b. reflexivity.
  - change (((bZ x =? 237) && (160 <=? bZ y) && (bZ y <? 192)) || has_surrogate (y :: r)
            = has_surrogate b).
    rewrite IH by exact Ha.
    replace (bZ x =? 237) with false by (symmetry; apply Z.eqb_neq; lia). reflexivity.
Qed.

Lemma has_surrogate_app_r (a b : list Byte.byte) :
  ascii_bytes b = true -> has_surrogate (a ++ b) = has_surrogate a.
Proof.
  intros Hb. induction a as [|x a IH]; [apply has_surrogate_ascii, Hb|].
  cbn [app]. destruct a as [|y a].
  - cbn [app]. destruct b as [|y b]; [reflexivity|].
    cbn [ascii_bytes forallb] in Hb. apply andb_prop in Hb as [Hy Hb'].
    apply Z.ltb_lt in Hy.
    change (((bZ x =? 237) && (160 <=? bZ y) && (bZ y <? 192)) || has_surrogate (y :: b)
            = false).
    rewrite (has_surrogate_ascii (y :: b)) by (cbn; rewrite Hb', andb_true_r; apply Z.ltb_lt; lia).
    replace (160 <=? bZ y) with false by (symmetry; apply Z.leb_gt; lia).
    rewrite andb_false_r. reflexivity.
  - change (((bZ x =? 237) && (160 <=? bZ y) && (bZ y <? 192)) || has_surrogate ((y :: a) ++ b)
            = ((bZ x =? 237) && (160 <=? bZ y) && (bZ y <? 192)) || has_surrogate (y :: a)).
    rewrite IH. reflexivity.
Qed.

Lemma digit_ascii (k : nat) :
  (k < 10)%nat ->
  ascii_bytes (list_byte_of_string (String (Ascii.ascii_of_nat (48 + k)) "")) = true.
Proof.
  intros H. do 10 (destruct k as [|k]; [reflexivity|]). lia.
Qed.

Lemma Z_digits_ascii (fuel : nat) (z : Z) : ascii_bytes (list_byte_of_string (Z_digits fuel z)) = true.
Proof.
  revert z. induction fuel as [|f IH]; intros z; [reflexivity|].
  cbn [Z_digits].
  assert (Hd : ascii_bytes (list_byte_of_string
                 (String (Ascii.ascii_of_nat (48 + Z.to_nat (z mod 10))) "")) = true).
  { apply digit_ascii. pose proof (Z.mod_pos_bound z 10). lia. }
  destruct (z <? 10); [exact Hd|].
  rewrite ascii_str_app, IH, Hd. reflexivity.
Qed.

Lemma Z_to_string_ascii (z : Z) : ascii_bytes (list_byte_of_string (Z_to_string z)) = true.
Proof.
  unfold Z_to_string. destruct (z <? 0); [rewrite ascii_str_app|]; apply Z_digits_ascii.
Qed.

Lemma pad2_ascii (z : Z) : ascii_bytes (list_byte_of_string (pad2 z)) = true.
Proof.
  unfold pad2. destruct (_ && _); [rewrite ascii_str_app|]; apply Z_to_string_ascii.
Qed.

Lemma strftime_ascii (t : datetime) : ascii_bytes (list_byte_of_string (strftime_log t)) = true.
Proof.
  unfold strftime_log. rewrite !ascii_str_app, Z_to_string_ascii, !pad2_ascii. reflexivity.
Qed.

Lemma hex_bytes_ascii (n : nat) (z : Z) : ascii_bytes (hex_bytes n z) = true.
Proof.
  unfold ascii_bytes, hex_bytes. apply forallb_forall. intros b Hb.
  apply in_map_iff in Hb as (i & <- & _).
  assert (H : 0 <= Z.land (Z.shiftr z (4 * Z.of_nat i)) 15 < 16).
  { change 15 with (Z.ones 4). rewrite Z.land_ones by lia. apply Z.mod_pos_bound. lia. }
  destruct H as [H0 H1]. generalize dependent (Z.land (Z.shiftr z (4 * Z.of_nat i)) 15).
  intros x H0 H1.
  assert (Hx : In x (map Z.of_nat (seq 0 16))).
  { apply in_map_iff. exists (Z.to_nat x). split; [lia|]. apply in_seq. lia. }
  assert (HF : Forall (fun x => (bZ (hex_digit x) <? 128) = true) (map Z.of_nat (seq 0 16)))
    by repeat constructor.
  rewrite List.Forall_forall in HF. exact (HF x Hx).
Qed.

Lemma hex_str_ascii (n : nat) (z : Z) :
  ascii_bytes (list_byte_of_string (string_of_list_byte (hex_bytes n z))) = true.
Proof. rewrite list_byte_of_string_of_list_byte. apply hex_bytes_ascii. Qed.

Lemma encode_error_ascii (l : list Byte.byte) :
  ascii_bytes (list_byte_of_string (exc_msg (encode_error l))) = true.
Proof.
  unfold encode_error, exc_msg.
  destruct (first_surrogate _ _) as [[[pos cp] [|[|n]]]|];
    rewrite ?ascii_str_app, ?hex_str_ascii, ?Z_to_string_ascii; reflexivity.
Qed.

(** No lone surrogate: the string can be encoded. *)
Definition text_ok (m : string) : Prop := has_surrogate (list_byte_of_string m) = false.

Lemma text_ok_ascii (m : string) : ascii_bytes (list_byte_of_string m) = true -> text_ok m.
Proof. apply has_surrogate_ascii. Qed.

Lemma text_ok_app_l (a b : string) :
  ascii_bytes (list_byte_of_string a) = true ->
  has_surrogate (list_byte_of_string (a +:+ b)) = has_surrogate (list_byte_of_string b).
Proof. intros H. rewrite list_byte_of_string_app. apply has_surrogate_app_l, H. Qed.

Lemma log_line_surrogate (env : io_env) (m : string) :
  has_surrogate (list_byte_of_string (log_line env m +:+ newline))
  = has_surrogate (list_byte_of_string m).
Proof.
  unfold log_line. rewrite list_byte_of_string_app.
  rewrite has_surrogate_app_r by reflexivity.
  rewrite (text_ok_app_l "[" _) by reflexivity.
  rewrite text_ok_app_l by apply strftime_ascii.
  apply (text_ok_app_l "] " m). reflexivity.
Qed.

Lemma encode_error_ok (l : list Byte.byte) : text_ok (exc_msg (encode_error l)).
Proof. apply text_ok_ascii, encode_error_ascii. Qed.

End TextFacts.

Import TextFacts.

(** ** Handler facts *)

Module HandlerFacts.

Lemma LOG_FILE_ne_LATEST_FILE : LOG_FILE <> LATEST_FILE.
Proof. discriminate. Qed.

Lemma log_event_flag (env : io_env) (m : string) (st : state) :
  boxe_wants_image (fst (log_event env m st)) = boxe_wants_image st.
Proof.
  unfold log_event. destruct (log_write_fails env); [reflexivity|].
  destruct (utf8_encode _); reflexivity.
Qed.

Lemma log_event_other (env : io_env) (m : string) (st : state) (p : string) :
  p <> LOG_FILE -> files (fst (log_event env m st)) !! p = files st !! p.
Proof.
  intros Hp. unfold log_event. destruct (log_write_fails env); [reflexivity|].
  destruct (utf8_encode _); cbn; rewrite ?lookup_insert_ne by congruence; reflexivity.
Qed.

(** The exception [log_event] raises. *)
Lemma log_event_raises (env : io_env) (m : string) (st : state) :
  snd (log_event env m st)
  = if log_write_fails env then Some (OSError "logs.txt")
    else if has_surrogate (list_byte_of_string m)
    then Some (encode_error (list_byte_of_string (log_line env m +:+ newline)))
    else None.
Proof.
  unfold log_event. destruct (log_write_fails env); [reflexivity|].
  unfold utf8_encode. rewrite log_line_surrogate.
  destruct (has_surrogate (list_byte_of_string m)); reflexivity.
Qed.

Lemma log_event_ok (env : io_env) (m : string) (st : state) :
  log_write_fails env = false -> text_ok m ->
  files (fst (log_event env m st)) !! LOG_FILE
  = Some (default [] (files st !! LOG_FILE)
          ++ list_byte_of_string (log_line env m +:+ newline)).
Proof.
  intros H Hm. unfold log_event. rewrite H. unfold utf8_encode.
  rewrite log_line_surrogate, Hm. cbn. rewrite !lookup_insert_eq. reflexivity.
Qed.

Lemma log_event_fail (env : io_env) (m : string) (st : state) :
  log_write_fails env = true -> log_event env m st = (st, Some (OSError "logs.txt")).
Proof. intros H. unfold log_event. rewrite H. reflexivity. Qed.

Lemma log_event_pair (env : io_env) (m : string) (st : state) :
  log_event env m st = (fst (log_event env m st), snd (log_event env m st)).
Proof. destruct (log_event env m st); reflexivity. Qed.

(** What [log_event] raises has a printable message. *)
Lemma log_event_exc_ok (env : io_env) (m : string) (st : state) (e : exc) :
  snd (log_event env m st) = Some e -> text_ok (exc_msg e).
Proof.
  rewrite log_event_raises.
  destruct (log_write_fails env); [intros H; injection H as <-; reflexivity|].
  destruct (has_surrogate _); [|discriminate].
  intros H; injection H as <-. apply encode_error_ok.
Qed.

(** The except clause of [receive_image]: logs.txt gains the error line. *)
Lemma upload_except_fst (env : io_env) (e : exc) (st : state) :
  fst (upload_except env e st)
  = fst (log_event env ("Error during upload: " +:+ exc_msg e) st).
Proof.
  unfold upload_except. rewrite log_event_pair.
  destruct (snd (log_event _ _ _)); reflexivity.
Qed.

(** Shape of the except clause of [receive_image]. *)
Lemma upload_except_spec (env : io_env) (e : exc) (st : state) :
  text_ok (exc_msg e) ->
  upload_except env e st
  = (fst (log_event env ("Error during upload: " +:+ exc_msg e) st),
     if log_write_fails env then Err (OSError "logs.txt")
     else Ok (JSONResp 200 (error_body (exc_msg e)))).
Proof.
  intros He. unfold upload_except. rewrite log_event_pair, log_event_raises.
  rewrite (text_ok_app_l "Error during upload: " _ eq_refl), He.
  destruct (log_write_fails env); reflexivity.
Qed.

Lemma upload_except_not_ok (env : io_env) (e : exc) (st : state) :
  snd (upload_except env e st) <> Ok (JSONResp 200 upload_ok_body).
Proof.
  unfold upload_except. rewrite log_event_pair.
  destruct (snd (log_event _ _ _)); discriminate.
Qed.

Lemma upload_except_image (env : io_env) (e : exc) (st : state) :
  files (fst (upload_except env e st)) !! LATEST_FILE = files st !! LATEST_FILE.
Proof.
  rewrite upload_except_fst. apply log_event_other. discriminate.
Qed.

Lemma upload_except_flag (env : io_env) (e : exc) (st : state) :
  boxe_wants_image (fst (upload_except env e st)) = boxe_wants_image st.
Proof. rewrite upload_except_fst. apply log_event_flag. Qed.

(** The errors of the try bodies carry printable messages. *)
Lemma py_getitem_exc_ok (data : pyval) (k : string) (e : exc) :
  ascii_bytes (list_byte_of_string k) = true ->
  py_getitem data k = Err e -> text_ok (exc_msg e).
Proof.
  intros Hk. destruct data; cbn [py_getitem]; try (intros H; injection H as <-; reflexivity).
  destruct (dict_lookup d k); [discriminate|]. intros H; injection H as <-.
  apply text_ok_ascii. cbn [exc_msg]. rewrite !ascii_str_app, Hk. reflexivity.
Qed.

Lemma py_get_exc_ok (data : pyval) (k : string) (dflt : pyval) (e : exc) :
  py_get data k dflt = Err e -> text_ok (exc_msg e).
Proof.
  destruct data; cbn [py_get]; try (intros H; injection H as <-; reflexivity).
  destruct (dict_lookup d k); discriminate.
Qed.

Lemma a2b_loop_exc_ok (inp : list Byte.byte) (q l p : Z) (acc : list Byte.byte) (e : exc) :
  a2b_loop inp q l p acc = Err e -> text_ok (exc_msg e).
Proof.
  revert q l p acc. induction inp as [|ch rest IH]; intros q l p acc; cbn [a2b_loop].
  - destruct (q =? 0); [discriminate|].
    destruct (q =? 1); intros H; injection H as <-; reflexivity.
  - destruct (Byte.eqb ch BASE64_PAD).
    + destruct (_ && _); [discriminate|apply IH].
    + destruct (table_a2b_base64 ch); [|apply IH].
      destruct (q =? 0); [apply IH|]. destruct (q =? 1); [apply IH|].
      destruct (q =? 2); apply IH.
Qed.

Lemma b64decode_exc_ok (v : pyval) (e : exc) :
  b64decode v = Err e -> text_ok (exc_msg e).
Proof.
  destruct v; cbn [b64decode]; try (intros H; injection H as <-; reflexivity);
    [|apply a2b_loop_exc_ok].
  destruct (forallb _ _); [apply a2b_loop_exc_ok|]. intros H; injection H as <-; reflexivity.
Qed.

Lemma write_wb_exc_ok (env : io_env) (p : string) (b : list Byte.byte) fs (e : exc) :
  snd (write_wb env p b fs) = Some e -> text_ok (exc_msg e).
Proof.
  unfold write_wb. destruct (img_open_fails env); [intros H; injection H as <-; reflexivity|].
  destruct (img_write_fails env); [intros H; injection H as <-; reflexivity|]. discriminate.
Qed.

End HandlerFacts.

Import HandlerFacts.

(** ** Outcomes of the handlers *)

(** The clock of the concrete runs below. *)
Definition C_now : datetime := mkDateTime 2026 10 14 12 0 0.

(** [await request.json()] fails with [JSONDecodeError] or
    [UnicodeDecodeError], whose messages are ASCII: a failing body
    carries a message without lone surrogates. *)
Definition body_ok (body : result pyval) : Prop :=
  match body with Err e => text_ok (exc_msg e) | Ok _ => True end.

Ltac text_ok_tac := unfold text_ok; reflexivity.

Lemma text_ok_prefix (a b : string) :
  ascii_bytes (list_byte_of_string a) = true -> text_ok b -> text_ok (a +:+ b).
Proof. intros Ha Hb. unfold text_ok. rewrite text_ok_app_l by exact Ha. exact Hb. Qed.

Lemma demand_msg_ok (v : pyval) :
  text_ok ("Box-E demand received: " +:+ (if truthy v then "YES" else "NO")).
Proof. destruct (truthy v); text_ok_tac. Qed.

Lemma get_latest_image_exc_ok (env : io_env) (st : state) (e : exc) :
  get_latest_image env st = Err e -> text_ok (exc_msg e).
Proof.
  unfold get_latest_image. destruct (files st !! LATEST_FILE); [|discriminate].
  destruct (img_read_fails env); [|discriminate]. intros H; injection H as <-. text_ok_tac.
Qed.

Lemma upload_except_fail (env : io_env) (e : exc) (st : state) :
  log_write_fails env = true -> snd (upload_except env e st) = Err (OSError "logs.txt").
Proof. intros H. unfold upload_except. rewrite log_event_fail by exact H. reflexivity. Qed.

Lemma demand_except_fst (env : io_env) (e : exc) (st : state) :
  fst (demand_except env e st)
  = fst (log_event env ("Error in /receive-demand: " +:+ exc_msg e) st).
Proof.
  unfold demand_except. rewrite log_event_pair.
  destruct (snd (log_event _ _ _)); reflexivity.
Qed.

Lemma demand_except_spec (env : io_env) (e : exc) (st : state) :
  text_ok (exc_msg e) ->
  demand_except env e st
  = (fst (log_event env ("Error in /receive-demand: " +:+ exc_msg e) st),
     if log_write_fails env then Err (OSError "logs.txt")
     else Ok (JSONResp 200 (error_body (exc_msg e)))).
Proof.
  intros He. unfold demand_except. rewrite log_event_pair, log_event_raises.
  rewrite (text_ok_app_l "Error in /receive-demand: " _ eq_refl), He.
  destruct (log_write_fails env); reflexivity.
Qed.

Lemma demand_except_fail (env : io_env) (e : exc) (st : state) :
  log_write_fails env = true -> snd (demand_except env e st) = Err (OSError "logs.txt").
Proof. intros H. unfold demand_except. rewrite log_event_fail by exact H. reflexivity. Qed.

Lemma receive_image_log_fails (env : io_env) (body : result pyval) (st : state) :
  log_write_fails env = true -> snd (receive_image env body st) = Err (OSError "logs.txt").
Proof.
  intros Hl.
  assert (Hx : forall e st0, snd (upload_except env e st0) = Err (OSError "logs.txt"))
    by (intros; apply upload_except_fail, Hl).
  unfold receive_image.
  destruct body as [data|e]; [|apply Hx].
  destruct (py_getitem data "image") as [v|e]; [|apply Hx].
  destruct (py_get data "filename" (PStr "latest.png")) as [fn|e]; [|apply Hx].
  destruct (b64decode v) as [b|e]; [|apply Hx].
  destruct (write_wb env LATEST_FILE b (files st)) as [fs1 [e|]]; [apply Hx|].
  cbn [fst snd]. rewrite log_event_fail by exact Hl. apply Hx.
Qed.

Lemma receive_image_outcome (env : io_env) (body : result pyval) (st : state) :
  log_write_fails env = false -> body_ok body ->
  snd (receive_image env body st) = Ok (JSONResp 200 upload_ok_body)
  \/ exists m, snd (receive_image env body st) = Ok (JSONResp 200 (error_body m)).
Proof.
  intros Hl Hb.
  assert (Hx : forall e st0, text_ok (exc_msg e) ->
          exists m, snd (upload_except env e st0) = Ok (JSONResp 200 (error_body m))).
  { intros e st0 He. rewrite upload_except_spec by exact He. rewrite Hl.
    eexists; reflexivity. }
  unfold receive_image.
  destruct body as [data|e]; [|right; apply Hx, Hb].
  destruct (py_getitem data "image") as [v|e] eqn:E1;
    [|right; apply Hx; exact (py_getitem_exc_ok _ "image" _ eq_refl E1)].
  destruct (py_get data "filename" (PStr "latest.png")) as [fn|e] eqn:E2;
    [|right; apply Hx; exact (py_get_exc_ok _ _ _ _ E2)].
  destruct (b64decode v) as [b|e] eqn:E3; [|right; apply Hx; exact (b64decode_exc_ok _ _ E3)].
  destruct (write_wb env LATEST_FILE b (files st)) as [fs1 [e|]] eqn:E4.
  { right. apply Hx. apply (write_wb_exc_ok env LATEST_FILE b (files st)). rewrite E4. reflexivity. }
  cbn [fst snd].
  destruct (log_event env ("Image received and saved: " +:+ py_str fn) (set_files fs1 st))
    as [st2 [e|]] eqn:E5.
  { right. apply Hx. pose proof (f_equal snd E5) as E6. cbn [snd] in E6.
    exact (log_event_exc_ok _ _ _ _ E6). }
  left. reflexivity.
Qed.

Lemma receive_demand_log_fails (env : io_env) (body : result pyval) (st : state) :
  log_write_fails env = true -> snd (receive_demand env body st) = Err (OSError "logs.txt").
Proof.
  intros Hl.
  assert (Hx : forall e st0, snd (demand_except env e st0) = Err (OSError "logs.txt"))
    by (intros; apply demand_except_fail, Hl).
  unfold receive_demand.
  destruct body as [data|e]; [|apply Hx].
  destruct (py_get data "demand" (PBool false)) as [v|e]; [|apply Hx].
  rewrite log_event_fail by exact Hl. apply Hx.
Qed.

Lemma receive_demand_outcome (env : io_env) (body : result pyval) (st : state) :
  log_write_fails env = false -> body_ok body ->
  (exists r, snd (receive_demand env body st) = Ok (WrapResp "imgResult" r))
  \/ exists m, snd (receive_demand env body st) = Ok (JSONResp 200 (error_body m)).
Proof.
  intros Hl Hb.
  assert (Hx : forall e st0, text_ok (exc_msg e) ->
          exists m, snd (demand_except env e st0) = Ok (JSONResp 200 (error_body m))).
  { intros e st0 He. rewrite demand_except_spec by exact He. rewrite Hl.
    eexists; reflexivity. }
  unfold receive_demand.
  destruct body as [data|e]; [|right; apply Hx, Hb].
  destruct (py_get data "demand" (PBool false)) as [v|e] eqn:E1;
    [|right; apply Hx; exact (py_get_exc_ok _ _ _ _ E1)].
  destruct (log_event env _ (set_boxe_wants_image v st)) as [st2 [e|]] eqn:E2.
  { right. apply Hx. pose proof (f_equal snd E2) as E3. cbn [snd] in E3.
    exact (log_event_exc_ok _ _ _ _ E3). }
  destruct (get_latest_image env st2) as [r|e] eqn:E3.
  - left. eexists. reflexivity.
  - right. apply Hx. exact (get_latest_image_exc_ok _ _ _ E3).
Qed.

Lemma receive_image_flag (env : io_env) (body : result pyval) (st : state) :
  boxe_wants_image (fst (receive_image env body st)) = boxe_wants_image st.
Proof.
  assert (Hx : forall e st0, boxe_wants_image (fst (upload_except env e st0))
                             = boxe_wants_image st0) by apply upload_except_flag.
  unfold receive_image.
  destruct body as [data|e]; [|apply Hx].
  destruct (py_getitem data "image") as [v|e]; [|apply Hx].
  destruct (py_get data "filename" (PStr "latest.png")) as [fn|e]; [|apply Hx].
  destruct (b64decode v) as [b|e]; [|apply Hx].
  destruct (write_wb env LATEST_FILE b (files st)) as [fs1 [e|]]; [rewrite Hx; reflexivity|].
  cbn [fst snd]. rewrite log_event_pair.
  destruct (snd (log_event _ _ _)); [rewrite Hx|]; cbn [fst]; rewrite log_event_flag; reflexivity.
Qed.

Lemma polling_tick_flag (env : io_env) (st : state) :
  boxe_wants_image (fst (fst (polling_tick env st))) = boxe_wants_image st.
Proof.
  unfold polling_tick. destruct (eq_False _); [|reflexivity].
  rewrite log_event_pair. apply log_event_flag.
Qed.

Lemma polling_tick_no_post (env : io_env) (st : state) :
  snd (fst (polling_tick env st)) = [].
Proof.
  unfold polling_tick. destruct (eq_False _); [|reflexivity].
  rewrite log_event_pair. reflexivity.
Qed.

(** ** C3: upload then fetch returns the uploaded bytes *)

(** C3: for every byte sequence [B] and every request dict carrying
    [image = base64(B)] (any filename), if [POST /upload] acknowledges with
    [status "ok"], a following [GET /get-latest-image] (whose read of the
    file does not fail) returns status ok with an [image_base64] value that
    [b64decode]s to exactly [B]. *)
Theorem C3_upload_get_roundtrip (B : list Byte.byte) (d : list (string * pyval))
    (env1 env2 : io_env) (st : state)
    (Himg : dict_lookup d "image" = Some (PStr (string_of_list_byte (b64encode B))))
    (Hok : snd (receive_image env1 (Ok (PDict d)) st) = Ok (JSONResp 200 upload_ok_body))
    (Hread : img_read_fails env2 = false) :
  exists enc,
    get_latest_image env2 (fst (receive_image env1 (Ok (PDict d)) st))
    = Ok (JSONResp 200 (PDict [("status", PStr "ok"); ("filename", PStr "latest.png");
                               ("image_base64", PBytes enc)]))
    /\ b64decode (PBytes enc) = Ok B.
Proof.
  revert Hok. unfold receive_image. cbn [py_getitem py_get]. rewrite Himg.
  rewrite Base64Facts.b64decode_str_b64encode.
  destruct (match dict_lookup d "filename" with Some v => Ok v | None => Ok (PStr "latest.png") end)
    as [filename|e].
  2:{ intros H. exfalso. exact (upload_except_not_ok _ _ _ H). }
  unfold write_wb.
  destruct (img_open_fails env1).
  { intros H. exfalso. exact (upload_except_not_ok _ _ _ H). }
  destruct (img_write_fails env1).
  { intros H. exfalso. exact (upload_except_not_ok _ _ _ H). }
  cbn [fst snd]. rewrite log_event_pair, log_event_raises.
  destruct (log_write_fails env1).
  { intros H. exfalso. exact (upload_except_not_ok _ _ _ H). }
  destruct (has_surrogate _).
  { intros H. exfalso. exact (upload_except_not_ok _ _ _ H). }
  intros _. cbn [fst].
  exists (b64encode B). split; [|apply Base64Facts.b64decode_bytes_b64encode].
  unfold get_latest_image. rewrite log_event_other by discriminate.
  cbn. rewrite !lookup_insert_eq. cbn. rewrite Hread. reflexivity.
Qed.

Lemma C3_witness :
  exists enc,
    get_latest_image (io_ok C_now)
      (fst (receive_image (io_ok C_now)
              (Ok (PDict [("image", PStr (string_of_list_byte (b64encode
                                (list_byte_of_string "hello"))));
                          ("filename", PStr "x.png")])) init_state))
    = Ok (JSONResp 200 (PDict [("status", PStr "ok"); ("filename", PStr "latest.png");
                               ("image_base64", PBytes enc)]))
    /\ b64decode (PBytes enc) = Ok (list_byte_of_string "hello").
Proof.
  apply (C3_upload_get_roundtrip (list_byte_of_string "hello")
           [("image", PStr (string_of_list_byte (b64encode (list_byte_of_string "hello"))));
            ("filename", PStr "x.png")]
           (io_ok C_now) (io_ok C_now) init_state).
  - reflexivity.
  - vm_compute. reflexivity.
  - reflexivity.
Defined.

(** ** C10: the filename field only reaches the log *)

Lemma receive_image_other_files (env : io_env) (body : result pyval) (st : state)
    (p : string) :
  p <> LATEST_FILE -> p <> LOG_FILE ->
  files (fst (receive_image env body st)) !! p = files st !! p.
Proof.
  intros H1 H2.
  assert (Hx : forall e st0, files (fst (upload_except env e st0)) !! p = files st0 !! p).
  { intros e st0. rewrite upload_except_fst. apply log_event_other, H2. }
  unfold receive_image.
  destruct body as [data|e]; [|apply Hx].
  destruct (py_getitem data "image") as [v|e]; [|apply Hx].
  destruct (py_get data "filename" (PStr "latest.png")) as [fn|e]; [|apply Hx].
  destruct (b64decode v) as [b|e]; [|apply Hx].
  unfold write_wb.
  destruct (img_open_fails env); [rewrite Hx; reflexivity|].
  destruct (img_write_fails env).
  - rewrite Hx. cbn. rewrite lookup_insert_ne by congruence. reflexivity.
  - cbn [fst snd]. rewrite log_event_pair. destruct (snd (log_event _ _ _)).
    + rewrite Hx. rewrite log_event_other by exact H2.
      cbn. rewrite !lookup_insert_ne by congruence. reflexivity.
    + cbn [fst]. rewrite log_event_other by exact H2.
      cbn. rewrite !lookup_insert_ne by congruence. reflexivity.
Qed.

Lemma filename_lookups (d : list (string * pyval)) (F : pyval) :
  dict_lookup (("filename", F) :: d) "image" = dict_lookup d "image"
  /\ dict_lookup (("filename", F) :: d) "filename" = Some F.
Proof. split; reflexivity. Qed.

Lemma receive_image_filename_files (env : io_env) (d : list (string * pyval))
    (F1 F2 : pyval) (st : state) (p : string) :
  p <> LOG_FILE ->
  files (fst (receive_image env (Ok (PDict (("filename", F1) :: d))) st)) !! p
  = files (fst (receive_image env (Ok (PDict (("filename", F2) :: d))) st)) !! p.
Proof.
  intros Hp. unfold receive_image. cbn [py_getitem py_get].
  rewrite (proj1 (filename_lookups d F1)), (proj1 (filename_lookups d F2)),
    (proj2 (filename_lookups d F1)), (proj2 (filename_lookups d F2)).
  destruct (dict_lookup d "image") as [v|];
    [|rewrite !upload_except_fst, !log_event_other by exact Hp; reflexivity].
  destruct (b64decode v) as [b|e];
    [|rewrite !upload_except_fst, !log_event_other by exact Hp; reflexivity].
  destruct (write_wb env LATEST_FILE b (files st)) as [fs1 [e|]]; cbn [fst snd];
    [rewrite !upload_except_fst, !log_event_other by exact Hp; reflexivity|].
  rewrite (log_event_pair env ("Image received and saved: " +:+ py_str F1)),
    (log_event_pair env ("Image received and saved: " +:+ py_str F2)).
  destruct (snd (log_event env ("Image received and saved: " +:+ py_str F1) _)),
    (snd (log_event env ("Image received and saved: " +:+ py_str F2) _));
    cbn [fst]; rewrite ?upload_except_fst, !log_event_other by exact Hp; reflexivity.
Qed.

Lemma receive_image_filename_answer (env : io_env) (d : list (string * pyval))
    (F1 F2 : pyval) (st : state) :
  utf8_encodable (py_str F1) = true -> utf8_encodable (py_str F2) = true ->
  snd (receive_image env (Ok (PDict (("filename", F1) :: d))) st)
  = snd (receive_image env (Ok (PDict (("filename", F2) :: d))) st).
Proof.
  intros H1 H2. unfold utf8_encodable in H1, H2.
  apply negb_true_iff in H1, H2.
  unfold receive_image. cbn [py_getitem py_get].
  rewrite (proj1 (filename_lookups d F1)), (proj1 (filename_lookups d F2)),
    (proj2 (filename_lookups d F1)), (proj2 (filename_lookups d F2)).
  destruct (dict_lookup d "image") as [v|]; [|reflexivity].
  destruct (b64decode v) as [b|e]; [|reflexivity].
  destruct (write_wb env LATEST_FILE b (files st)) as [fs1 [e|]]; cbn [fst snd]; [reflexivity|].
  rewrite (log_event_pair env ("Image received and saved: " +:+ py_str F1)),
    (log_event_pair env ("Image received and saved: " +:+ py_str F2)), !log_event_raises.
  rewrite !(text_ok_app_l "Image received and saved: " _ eq_refl), H1, H2.
  destruct (log_write_fails env) eqn:Hl; cbn [fst snd];
    [rewrite !upload_except_fail by exact Hl|]; reflexivity.
Qed.

(** A lone surrogate (U+D800), which [json.loads] accepts in a string:
    ["\ud800"]. *)
Definition C10_lone_surrogate : string := string_of_list_byte [Byte.xed; Byte.xa0; Byte.x80].

Definition C10_request (filename : string) : result pyval :=
  Ok (PDict [("image", PStr "aGk="); ("filename", PStr filename)]).

(** C10 (counterexample): two uploads of the same image that differ only
    in their filename get different answers: with the filename "\ud800"
    the log line cannot be encoded, [log_event] raises
    [UnicodeEncodeError] after the image has been written, and the
    upload answers [status "error"]; with "x.png" it answers
    [status "ok"]. *)
Lemma C10_surrogate_filename :
  snd (receive_image (io_ok C_now) (C10_request C10_lone_surrogate) init_state)
  = Ok (JSONResp 200 (error_body
      "'utf-8' codec can't encode character '\ud800' in position 48: surrogates not allowed"))
  /\ snd (receive_image (io_ok C_now) (C10_request "x.png") init_state)
     = Ok (JSONResp 200 upload_ok_body)
  /\ files (fst (receive_image (io_ok C_now) (C10_request C10_lone_surrogate) init_state))
       !! LATEST_FILE = Some (list_byte_of_string "hi").
Proof. vm_compute. split; [reflexivity|split; reflexivity]. Qed.

(** C10 (amended): whatever filename a [POST /upload] request carries,
    the upload writes no file other than latest/latest.png (and the
    log), and requests that differ only in their filename leave the same
    files except logs.txt; they get the same answer when both filenames
    can be encoded in UTF-8, while a filename holding a lone surrogate
    turns an upload that stored the image into an error answer; a
    successful upload leaves the decoded bytes at latest/latest.png; and
    every 200 answer of [GET /get-latest-image] reports the filename
    "latest.png". *)
Theorem C10_fixed_storage_path :
  (forall env body st p, p <> LATEST_FILE -> p <> LOG_FILE ->
     files (fst (receive_image env body st)) !! p = files st !! p)
  /\ (forall env d F1 F2 st p, p <> LOG_FILE ->
        files (fst (receive_image env (Ok (PDict (("filename", F1) :: d))) st)) !! p
        = files (fst (receive_image env (Ok (PDict (("filename", F2) :: d))) st)) !! p)
  /\ (forall env d F1 F2 st,
     utf8_encodable (py_str F1) = true -> utf8_encodable (py_str F2) = true ->
     snd (receive_image env (Ok (PDict (("filename", F1) :: d))) st)
     = snd (receive_image env (Ok (PDict (("filename", F2) :: d))) st))
  /\ (forall env d st v B,
     dict_lookup d "image" = Some v -> b64decode v = Ok B ->
     snd (receive_image env (Ok (PDict d)) st) = Ok (JSONResp 200 upload_ok_body) ->
     files (fst (receive_image env (Ok (PDict d)) st)) !! LATEST_FILE = Some B)
  /\ (forall env d st v B F,
     dict_lookup d "image" = Some v -> b64decode v = Ok B ->
     dict_lookup d "filename" = Some F -> utf8_encodable (py_str F) = false ->
     img_open_fails env = false -> img_write_fails env = false -> log_write_fails env = false ->
     files (fst (receive_image env (Ok (PDict d)) st)) !! LATEST_FILE = Some B
     /\ snd (receive_image env (Ok (PDict d)) st)
        = Ok (JSONResp 200 (error_body (exc_msg (encode_error (list_byte_of_string
            (log_line env ("Image received and saved: " +:+ py_str F) +:+ newline)))))))
  /\ (forall env st c,
     get_latest_image env st = Ok (JSONResp 200 c) ->
     exists rest, c = PDict (("status", PStr "ok") :: ("filename", PStr "latest.png") :: rest)).
Proof.
  split; [exact receive_image_other_files|].
  split; [exact receive_image_filename_files|].
  split; [exact receive_image_filename_answer|].
  split.
  { intros env d st v B Hv HB. unfold receive_image. cbn [py_getitem py_get].
    rewrite Hv, HB.
    destruct (match dict_lookup d "filename" with Some v0 => Ok v0 | None => Ok (PStr "latest.png") end)
      as [fn|e].
    2:{ intros H. exfalso. exact (upload_except_not_ok _ _ _ H). }
    unfold write_wb.
    destruct (img_open_fails env).
    { intros H. exfalso. exact (upload_except_not_ok _ _ _ H). }
    destruct (img_write_fails env).
    { intros H. exfalso. exact (upload_except_not_ok _ _ _ H). }
    cbn [fst snd]. rewrite log_event_pair, log_event_raises.
    destruct (log_write_fails env).
    { intros H. exfalso. exact (upload_except_not_ok _ _ _ H). }
    destruct (has_surrogate _).
    { intros H. exfalso. exact (upload_except_not_ok _ _ _ H). }
    intros _. cbn [fst]. rewrite log_event_other by discriminate.
    cbn. rewrite !lookup_insert_eq. reflexivity. }
  split.
  { intros env d st v B F Hv HB HF Henc Ho Hw Hl.
    unfold utf8_encodable in Henc. apply negb_false_iff in Henc.
    unfold receive_image. cbn [py_getitem py_get]. rewrite Hv, HF, HB.
    unfold write_wb. rewrite Ho, Hw. cbn [fst snd].
    rewrite log_event_pair, log_event_raises, Hl.
    rewrite (text_ok_app_l "Image received and saved: " _ eq_refl), Henc.
    cbn [fst snd]. rewrite upload_except_spec by apply encode_error_ok. rewrite Hl.
    cbn [fst snd]. split; [|reflexivity].
    rewrite !log_event_other by discriminate.
    cbn. rewrite !lookup_insert_eq. reflexivity. }
  intros env st c. unfold get_latest_image.
  destruct (files st !! LATEST_FILE); [|discriminate].
  destruct (img_read_fails env); [discriminate|].
  intros H. injection H as <-. eexists. reflexivity.
Qed.

(** ** C4: uploads with an image [b64decode] does not accept *)

(** A slot holding a previous image. *)
Definition C4_prior : state :=
  mkState {[LATEST_FILE := list_byte_of_string "PNGDATA"]} (PBool false) [].

(** C4 (counterexample): ["!!!!"] is not base64, yet the lenient decoder
    drops its characters and returns [b''], so the upload answers
    [status "ok"] and replaces the prior image with an empty file. *)
Lemma C4_nonbase64_overwrites_slot :
  snd (receive_image (io_ok C_now)
         (Ok (PDict [("image", PStr "!!!!")])) C4_prior)
  = Ok (JSONResp 200 upload_ok_body)
  /\ files (fst (receive_image (io_ok C_now)
                   (Ok (PDict [("image", PStr "!!!!")])) C4_prior)) !! LATEST_FILE
     = Some []
  /\ files C4_prior !! LATEST_FILE <> Some [].
Proof. vm_compute. split; [reflexivity|]. split; [reflexivity|]. discriminate. Qed.

(** C4 (amended): when the request's [image] value is one [b64decode]
    rejects, latest/latest.png is left as it was (present or absent), and
    the answer is [{status:"error", message: str(e)}] unless writing the
    log in the except clause fails, in which case that [OSError] is
    raised. *)
Theorem C4_rejected_image_keeps_slot (env : io_env) (d : list (string * pyval))
    (st : state) (v : pyval) (e : exc)
    (Hv : dict_lookup d "image" = Some v) (He : b64decode v = Err e) :
  files (fst (receive_image env (Ok (PDict d)) st)) !! LATEST_FILE = files st !! LATEST_FILE
  /\ snd (receive_image env (Ok (PDict d)) st)
     = if log_write_fails env then Err (OSError "logs.txt")
       else Ok (JSONResp 200 (error_body (exc_msg e))).
Proof.
  unfold receive_image. cbn [py_getitem py_get]. rewrite Hv.
  destruct (dict_lookup d "filename"); rewrite He;
    (split; [apply upload_except_image
            | rewrite upload_except_spec by exact (b64decode_exc_ok _ _ He); reflexivity]).
Qed.

Lemma C4_witness :
  files (fst (receive_image (io_ok C_now) (Ok (PDict [("image", PStr "a")])) C4_prior))
    !! LATEST_FILE = files C4_prior !! LATEST_FILE
  /\ snd (receive_image (io_ok C_now) (Ok (PDict [("image", PStr "a")])) C4_prior)
     = if log_write_fails (io_ok C_now) then Err (OSError "logs.txt")
       else Ok (JSONResp 200 (error_body (exc_msg (binascii_Error
         "Invalid base64-encoded string: number of data characters cannot be 1 more than a multiple of 4")))).
Proof.
  apply (C4_rejected_image_keeps_slot (io_ok C_now) [("image", PStr "a")] C4_prior (PStr "a")).
  - reflexivity.
  - vm_compute. reflexivity.
Defined.

(** ** C5: the image write is in place *)

Module ReadFacts.

Lemma prefix_states_image (fs : gmap string (list Byte.byte)) (B : list Byte.byte) :
  write_prefix_states fs (write_image_ops LATEST_FILE B)
  = [fs; <[LATEST_FILE := []]> fs; <[LATEST_FILE := B]> fs].
Proof.
  assert (F : fold_left apply_op (write_image_ops LATEST_FILE B) fs = <[LATEST_FILE := B]> fs).
  { cbn. rewrite lookup_insert_eq. cbn. apply insert_insert_eq. }
  cbn [write_prefix_states write_image_ops length seq map firstn].
  f_equal. f_equal. exact (f_equal (fun l => [l]) F).
Qed.

Lemma image_versions_eq (fs : gmap string (list Byte.byte)) (B old : list Byte.byte) :
  fs !! LATEST_FILE = Some old -> image_versions fs B = [old; []; B].
Proof.
  intros H. unfold image_versions. rewrite prefix_states_image. cbn [map].
  rewrite H, !lookup_insert_eq. reflexivity.
Qed.

Lemma read_call_nil (pos n : nat) : read_call [] pos n = [].
Proof. destruct pos, n; reflexivity. Qed.

Lemma firstn_skipn_length (n : nat) (l : list Byte.byte) :
  firstn n l ++ skipn (length (firstn n l)) l = l.
Proof.
  revert l. induction n as [|n IH]; intros [|x l]; try reflexivity.
  cbn. f_equal. apply IH.
Qed.

Lemma firstn_length_firstn (n : nat) (l : list Byte.byte) :
  firstn (length (firstn n l)) l = firstn n l.
Proof.
  revert l. induction n as [|n IH]; intros [|x l]; try reflexivity.
  cbn. f_equal. apply IH.
Qed.

(** What a read returns is followed, in the file, by what remains after it. *)
Lemma chunk_app (c : list Byte.byte) (pos n : nat) :
  read_call c pos n ++ skipn (pos + length (read_call c pos n)) c = skipn pos c.
Proof.
  unfold read_call. rewrite Nat.add_comm, <- skipn_skipn. apply firstn_skipn_length.
Qed.

(** What a read returns extends the prefix read so far. *)
Lemma firstn_chunk (c : list Byte.byte) (pos n : nat) :
  firstn pos c ++ read_call c pos n = firstn (pos + length (read_call c pos n)) c.
Proof.
  unfold read_call. revert c. induction pos as [|pos IH]; intros c.
  - cbn [firstn skipn app Nat.add]. symmetry. apply firstn_length_firstn.
  - destruct c as [|x c].
    + destruct n; reflexivity.
    + cbn [firstn skipn app Nat.add]. f_equal. apply IH.
Qed.

Lemma sched_ok_cons (nv prev v n : nat) (rest : list (nat * nat)) :
  sched_ok nv prev ((v, n) :: rest) = true <->
  (prev <= v)%nat /\ (v < nv)%nat /\ (0 < n)%nat /\ sched_ok nv v rest = true.
Proof.
  cbn [sched_ok]. rewrite !andb_true_iff, Nat.leb_le, !Nat.ltb_lt. tauto.
Qed.

(** Once the new content has been written, the reader reads it to the end. *)
Lemma read_loop_new (old B : list Byte.byte) (sched : list (nat * nat)) (pos : nat)
    (r : list Byte.byte) :
  sched_ok 3 2 sched = true -> read_loop [old; []; B] sched pos = Some r -> r = skipn pos B.
Proof.
  revert pos r. induction sched as [|[v n] rest IH]; intros pos r Hs Hr; [discriminate|].
  apply sched_ok_cons in Hs as (H2 & H3 & Hn & Hrest).
  assert (v = 2)%nat by lia. subst v.
  cbn [read_loop nth] in Hr.
  destruct (read_call B pos n) as [|x ch] eqn:E.
  - injection Hr as <-. unfold read_call in E.
    destruct (skipn pos B); [reflexivity|]. destruct n; [lia|discriminate].
  - destruct (read_loop _ rest _) as [r'|] eqn:E2; [|discriminate].
    cbn [option_map] in Hr. injection Hr as <-.
    apply IH in E2; [|exact Hrest]. subst r'.
    pose proof (chunk_app B pos n) as C. rewrite E in C. exact C.
Qed.

(** From the truncation on, the reader gets nothing or the rest of the
    new content. *)
Lemma read_loop_after (old B : list Byte.byte) (sched : list (nat * nat)) (pos : nat)
    (r : list Byte.byte) :
  sched_ok 3 1 sched = true -> read_loop [old; []; B] sched pos = Some r ->
  r = [] \/ r = skipn pos B.
Proof.
  intros Hs Hr. destruct sched as [|[v n] rest]; [discriminate|].
  pose proof (proj1 (sched_ok_cons _ _ _ _ _) Hs) as (H1 & H3 & Hn & Hrest).
  destruct (Nat.eq_dec v 1%nat) as [->|Hv].
  - left. cbn [read_loop nth] in Hr. rewrite read_call_nil in Hr. injection Hr as <-. reflexivity.
  - right. assert (v = 2)%nat by lia. subst v.
    apply (read_loop_new old B ((2%nat, n) :: rest)); [|exact Hr].
    apply sched_ok_cons. repeat split; [lia|lia|lia|exact Hrest].
Qed.

(** A reader that starts before the write: a prefix of the old content,
    possibly followed by the new content from the same offset on. *)
Lemma read_loop_old (old B : list Byte.byte) (sched : list (nat * nat)) (pos : nat)
    (r : list Byte.byte) :
  (pos <= length old)%nat -> sched_ok 3 0 sched = true ->
  read_loop [old; []; B] sched pos = Some r ->
  exists a, (a <= length old)%nat
    /\ (firstn pos old ++ r = firstn a old \/ firstn pos old ++ r = firstn a old ++ skipn a B).
Proof.
  revert pos r. induction sched as [|[v n] rest IH]; intros pos r Hp Hs Hr; [discriminate|].
  pose proof (proj1 (sched_ok_cons _ _ _ _ _) Hs) as (H0 & H3 & Hn & Hrest).
  destruct v as [|v].
  - cbn [read_loop nth] in Hr.
    destruct (read_call old pos n) as [|x ch] eqn:E.
    + injection Hr as <-. exists pos. split; [exact Hp|]. left. apply app_nil_r.
    + destruct (read_loop _ rest _) as [r'|] eqn:E2; [|discriminate].
      cbn [option_map] in Hr. injection Hr as <-.
      assert (Hp' : (pos + length (x :: ch) <= length old)%nat).
      { rewrite <- E. unfold read_call. rewrite length_firstn, length_skipn. lia. }
      destruct (IH _ _ Hp' Hrest E2) as (a & Ha & Hx). exists a. split; [exact Ha|].
      change (x :: ch ++ r') with ((x :: ch) ++ r').
      rewrite app_assoc, <- E, firstn_chunk, E. exact Hx.
  - assert (Hs1 : sched_ok 3 1 ((S v, n) :: rest) = true).
    { apply sched_ok_cons. repeat split; [lia|lia|lia|exact Hrest]. }
    exists pos. split; [exact Hp|].
    destruct (read_loop_after _ _ _ _ _ Hs1 Hr) as [-> | ->].
    + left. apply app_nil_r.
    + right. reflexivity.
Qed.

Lemma concurrent_read_image (fs : gmap string (list Byte.byte)) (B old : list Byte.byte)
    (sched : list (nat * nat)) (r : list Byte.byte) :
  fs !! LATEST_FILE = Some old -> concurrent_read (image_versions fs B) sched = Some r ->
  exists a, (a <= length old)%nat /\ (r = firstn a old \/ r = firstn a old ++ skipn a B).
Proof.
  intros Hf. unfold concurrent_read. rewrite (image_versions_eq fs B old Hf). cbn [length].
  destruct (sched_ok 3 0 sched) eqn:Hs; [|discriminate]. intros Hr.
  destruct (read_loop_old old B sched 0 r ltac:(lia) Hs Hr) as (a & Ha & Hx).
  exists a. split; exact Ha || exact Hx.
Qed.

End ReadFacts.

Definition C5_old : list Byte.byte := list_byte_of_string "AAAA".
Definition C5_new : list Byte.byte := list_byte_of_string "BBBBBBBB".

(** The calls of [FileIO.readall] on the 4-byte file: [read(4 + 1)]
    before the upload's [open(..., "wb")], then, once [f.write] is done,
    [read(1)] to fill that buffer, [read(8192)] after it has grown by
    8192, and [read(8189)], which finds the end. *)
Definition C5_sched : list (nat * nat) := [(0, 5); (2, 1); (2, 8192); (2, 8189)]%nat.

(** C5 (counterexample): the write is in place, so a [f.read()] that
    runs while an upload replaces "AAAA" with "BBBBBBBB" returns
    "AAAABBBB": neither the old nor the new content. *)
Lemma C5_torn_read :
  concurrent_read (image_versions {[LATEST_FILE := C5_old]} C5_new) C5_sched
  = Some (list_byte_of_string "AAAABBBB")
  /\ list_byte_of_string "AAAABBBB" <> C5_old
  /\ list_byte_of_string "AAAABBBB" <> C5_new.
Proof. split; [vm_compute; reflexivity|split; discriminate]. Qed.

(** C5 (amended): the write updates latest/latest.png in place, with no
    temporary file and no rename: the file system goes from the prior
    files to the same files with latest/latest.png truncated to empty,
    then to the final files, and a fault-free [write_wb] ends in the
    final ones; a reader that runs [f.read()] on the old content
    [old] while that happens gets the first [a] bytes of [old], possibly
    followed by the new content from offset [a] on. *)
Theorem C5_in_place_write (fs : gmap string (list Byte.byte)) (B : list Byte.byte) :
  write_prefix_states fs (write_image_ops LATEST_FILE B)
  = [fs; <[LATEST_FILE := []]> fs; <[LATEST_FILE := B]> fs]
  /\ (forall env, img_open_fails env = false -> img_write_fails env = false ->
        write_wb env LATEST_FILE B fs = (<[LATEST_FILE := B]> fs, None))
  /\ (forall old sched r, fs !! LATEST_FILE = Some old ->
        concurrent_read (image_versions fs B) sched = Some r ->
        exists a, (a <= length old)%nat
          /\ (r = firstn a old \/ r = firstn a old ++ skipn a B)).
Proof.
  split; [apply ReadFacts.prefix_states_image|].
  split.
  - intros env H1 H2. unfold write_wb. rewrite H1, H2.
    cbn. rewrite lookup_insert_eq. cbn. rewrite insert_insert_eq. reflexivity.
  - intros old sched r. apply ReadFacts.concurrent_read_image.
Qed.

(** ** C7: not-found answers and present images *)

(** C7: [GET /get-latest-image] and [GET /view-image] answer 404 with
    [{status:"error", message:"No image available"}] exactly when
    latest/latest.png is absent; when it holds [content] (and reading it
    does not fail), get-latest-image answers status ok, filename
    "latest.png" and [base64(content)], and view-image answers a
    [FileResponse] with media type image/png that streams [content],
    whatever those bytes are. *)
Theorem C7_not_found_iff_absent (env : io_env) (st : state)
    (Hread : img_read_fails env = false) :
  ((exists b, get_latest_image env st = Ok (JSONResp 404 b)) <-> files st !! LATEST_FILE = None)
  /\ ((exists b, view_image st = Ok (JSONResp 404 b)) <-> files st !! LATEST_FILE = None)
  /\ (files st !! LATEST_FILE = None ->
      get_latest_image env st = Ok (JSONResp 404 (error_body "No image available"))
      /\ view_image st = Ok (JSONResp 404 (error_body "No image available")))
  /\ (forall content, files st !! LATEST_FILE = Some content ->
      get_latest_image env st
      = Ok (JSONResp 200 (PDict [("status", PStr "ok"); ("filename", PStr "latest.png");
                                 ("image_base64", PBytes (b64encode content))]))
      /\ view_image st = Ok (FileResp LATEST_FILE "image/png")
      /\ served_bytes env st (FileResp LATEST_FILE "image/png") = Some (Ok content)).
Proof.
  unfold get_latest_image, view_image, image_exists, served_bytes.
  destruct (files st !! LATEST_FILE) as [c|] eqn:E.
  - rewrite Hread. split; [split; [intros [b H]; discriminate | discriminate]|].
    split; [split; [intros [b H]; discriminate | discriminate]|].
    split; [discriminate|].
    intros content H. injection H as <-. auto.
  - split; [split; [intros _; reflexivity | intros _; eexists; reflexivity]|].
    split; [split; [intros _; reflexivity | intros _; eexists; reflexivity]|].
    split; [auto|]. discriminate.
Qed.

Lemma C7_witness :
  ((exists b, get_latest_image (io_ok C_now) C4_prior = Ok (JSONResp 404 b))
     <-> files C4_prior !! LATEST_FILE = None)
  /\ ((exists b, view_image C4_prior = Ok (JSONResp 404 b))
     <-> files C4_prior !! LATEST_FILE = None)
  /\ (files C4_prior !! LATEST_FILE = None ->
      get_latest_image (io_ok C_now) C4_prior = Ok (JSONResp 404 (error_body "No image available"))
      /\ view_image C4_prior = Ok (JSONResp 404 (error_body "No image available")))
  /\ (forall content, files C4_prior !! LATEST_FILE = Some content ->
      get_latest_image (io_ok C_now) C4_prior
      = Ok (JSONResp 200 (PDict [("status", PStr "ok"); ("filename", PStr "latest.png");
                                 ("image_base64", PBytes (b64encode content))]))
      /\ view_image C4_prior = Ok (FileResp LATEST_FILE "image/png")
      /\ served_bytes (io_ok C_now) C4_prior (FileResp LATEST_FILE "image/png")
         = Some (Ok content)).
Proof. apply (C7_not_found_iff_absent (io_ok C_now) C4_prior). reflexivity. Defined.

(** ** C1: the polling loop sends nothing *)

(** The slot holds "hello" and the flag is [True]. *)
Definition C1_state : state :=
  mkState {[LATEST_FILE := list_byte_of_string "hello"]} (PBool true) [].

(** C1 (the code's behaviour at the failing input): with the flag [True]
    and an image stored, a tick of the polling loop issues no outbound
    request and changes nothing; this holds for every tick, as the loop
    body has no request call. *)
Theorem C1_demand_true_tick_sends_nothing :
  polling_tick (io_ok C_now) C1_state = (C1_state, [], None)
  /\ (forall env st, snd (fst (polling_tick env st)) = []).
Proof. split; [reflexivity | exact polling_tick_no_post]. Qed.

(** ** C2: which handlers catch which failures *)

Definition env_log_write_fails : io_env := mkIo C_now true false false false false.
Definition env_log_read_fails : io_env := mkIo C_now false true false false false.
Definition env_img_read_fails : io_env := mkIo C_now false false false false true.

(** A process whose log file exists. *)
Definition C2_logged : state :=
  mkState {[LOG_FILE := list_byte_of_string "[t] Polling loop started."]} (PBool false) [].

(** A log file that is not UTF-8 (byte 0xff). *)
Definition C2_bad_log : state := mkState {[LOG_FILE := [Byte.xff]]} (PBool false) [].

(** C2 (counterexample): a read error on an existing image escapes
    [GET /get-latest-image], and the [FileResponse] of [GET /view-image]
    fails while it is sent; a read error on logs.txt, or a log that is
    not UTF-8, escapes [GET /view-logs]; and a log write error escapes
    [POST /upload] from its except clause: none of them is answered with
    a structured body. *)
Lemma C2_exceptions_escape :
  get_latest_image env_img_read_fails C4_prior = Err (OSError "latest/latest.png")
  /\ view_image C4_prior = Ok (FileResp LATEST_FILE "image/png")
  /\ served_bytes env_img_read_fails C4_prior (FileResp LATEST_FILE "image/png")
     = Some (Err (OSError "latest/latest.png"))
  /\ view_logs env_log_read_fails C2_logged = Err (OSError "logs.txt")
  /\ view_logs (io_ok C_now) C2_bad_log
     = Err (PyExc "UnicodeDecodeError"
              "'utf-8' codec can't decode byte 0xff in position 0: invalid start byte")
  /\ snd (receive_image env_log_write_fails (Ok (PDict [("image", PStr "aGVsbG8=")])) init_state)
     = Err (OSError "logs.txt").
Proof. vm_compute. repeat split. Qed.

(** C2 (amended): [POST /upload] and [POST /receive-demand] turn every
    failure of their try body into [{status:"error", message}] (or answer
    their success value) as long as logs.txt can be written; when it
    cannot, the [OSError] of the except clause's [log_event] escapes.
    [GET /check] never fails.  [GET /view-image] returns a
    [FileResponse] when the image exists, whose sending fails when the
    file cannot be read.  [GET /get-latest-image] and [GET /view-logs]
    have no try block: they answer absence with an explicit check and let
    a read error of an existing file, or a log that is not UTF-8,
    escape. *)
Theorem C2_handler_failure_scope :
  (forall env body st, log_write_fails env = false -> body_ok body ->
     snd (receive_image env body st) = Ok (JSONResp 200 upload_ok_body)
     \/ exists m, snd (receive_image env body st) = Ok (JSONResp 200 (error_body m)))
  /\ (forall env body st, log_write_fails env = false -> body_ok body ->
     (exists r, snd (receive_demand env body st) = Ok (WrapResp "imgResult" r))
     \/ exists m, snd (receive_demand env body st) = Ok (JSONResp 200 (error_body m)))
  /\ (forall env body st, log_write_fails env = true ->
     snd (receive_image env body st) = Err (OSError "logs.txt")
     /\ snd (receive_demand env body st) = Err (OSError "logs.txt"))
  /\ (forall st, exists r, status st = Ok r)
  /\ (forall st, exists r, view_image st = Ok r)
  /\ (forall env st c, files st !! LATEST_FILE = Some c -> img_read_fails env = true ->
     view_image st = Ok (FileResp LATEST_FILE "image/png")
     /\ served_bytes env st (FileResp LATEST_FILE "image/png")
        = Some (Err (OSError LATEST_FILE)))
  /\ (forall env st, img_read_fails env = false -> exists r, get_latest_image env st = Ok r)
  /\ (forall env st c, files st !! LATEST_FILE = Some c -> img_read_fails env = true ->
     get_latest_image env st = Err (OSError "latest/latest.png"))
  /\ (forall env st, log_read_fails env = false ->
     (forall c, files st !! LOG_FILE = Some c -> utf8_check c 0 = None) ->
     exists r, view_logs env st = Ok r)
  /\ (forall env st c, files st !! LOG_FILE = Some c -> log_read_fails env = true ->
     view_logs env st = Err (OSError "logs.txt"))
  /\ (forall env st c s, files st !! LOG_FILE = Some c -> log_read_fails env = false ->
     utf8_check c 0 = Some s ->
     exists e, view_logs env st = Err e /\ exc_kind e = "UnicodeDecodeError").
Proof.
  split; [intros env body st H Hb; apply receive_image_outcome; assumption|].
  split; [intros env body st H Hb; apply receive_demand_outcome; assumption|].
  split.
  { intros env body st H. split;
      [apply receive_image_log_fails, H | apply receive_demand_log_fails, H]. }
  split; [intros st; eexists; reflexivity|].
  split; [intros st; unfold view_image; destruct (image_exists st); eexists; reflexivity|].
  split.
  { intros env st c Hc H. unfold view_image, image_exists, served_bytes.
    rewrite Hc, H. split; reflexivity. }
  split.
  { intros env st H. unfold get_latest_image. destruct (files st !! LATEST_FILE);
      [rewrite H|]; eexists; reflexivity. }
  split.
  { intros env st c Hc H. unfold get_latest_image. rewrite Hc, H. reflexivity. }
  split.
  { intros env st H Hv. unfold view_logs.
    destruct (files st !! LOG_FILE) as [c|] eqn:E; [|eexists; reflexivity].
    rewrite H. unfold utf8_decode. rewrite (Hv c eq_refl). eexists; reflexivity. }
  split.
  { intros env st c Hc H. unfold view_logs. rewrite Hc, H. reflexivity. }
  intros env st c s Hc H Hs. unfold view_logs, utf8_decode. rewrite Hc, H, Hs.
  destruct s as [[start stop] reason]. eexists. split; reflexivity.
Qed.

(** ** C6: the demand flag *)

(** C6: for a [POST /receive-demand] whose JSON body is an object [d],
    the flag becomes [d.get("demand", False)] and, when logs.txt can be
    written, the log gains the line "Box-E demand received: YES/NO"
    (by the new value's truthiness) right after its prior content; the
    upload handler and the polling loop leave the flag as it was (the
    GET handlers return no new state at all). *)
Theorem C6_receive_demand_sets_flag (env : io_env) (d : list (string * pyval))
    (st : state) (Hlog : log_write_fails env = false) :
  boxe_wants_image (fst (receive_demand env (Ok (PDict d)) st))
  = default (PBool false) (dict_lookup d "demand")
  /\ (exists rest,
      files (fst (receive_demand env (Ok (PDict d)) st)) !! LOG_FILE
      = Some (default [] (files st !! LOG_FILE)
              ++ list_byte_of_string (log_line env ("Box-E demand received: " +:+
                   (if truthy (default (PBool false) (dict_lookup d "demand"))
                    then "YES" else "NO")) +:+ newline)
              ++ rest))
  /\ (forall env' body st', boxe_wants_image (fst (receive_image env' body st'))
                           = boxe_wants_image st')
  /\ (forall env' st', boxe_wants_image (fst (fst (polling_tick env' st')))
                      = boxe_wants_image st')
  /\ (forall env' st', boxe_wants_image (fst (polling_start env' st'))
                      = boxe_wants_image st').
Proof.
  split; [|split; [|split; [exact receive_image_flag|split;
    [exact polling_tick_flag|intros; apply log_event_flag]]]].
  - unfold receive_demand. cbn [py_get].
    replace (match dict_lookup d "demand" with Some v => Ok v | None => Ok (PBool false) end)
      with (@Ok pyval (default (PBool false) (dict_lookup d "demand")))
      by (destruct (dict_lookup d "demand"); reflexivity).
    rewrite log_event_pair, log_event_raises, Hlog, demand_msg_ok.
    destruct (get_latest_image env _); cbn [fst];
      [|rewrite demand_except_fst; rewrite log_event_flag];
      rewrite log_event_flag; reflexivity.
  - unfold receive_demand. cbn [py_get].
    replace (match dict_lookup d "demand" with Some v => Ok v | None => Ok (PBool false) end)
      with (@Ok pyval (default (PBool false) (dict_lookup d "demand")))
      by (destruct (dict_lookup d "demand"); reflexivity).
    rewrite log_event_pair, log_event_raises, Hlog, demand_msg_ok.
    destruct (get_latest_image env _) as [r|e] eqn:Eg; cbn [fst].
    + exists []. rewrite app_nil_r.
      rewrite log_event_ok by (exact Hlog || apply demand_msg_ok). reflexivity.
    + rewrite demand_except_fst.
      rewrite log_event_ok, log_event_ok;
        [| exact Hlog | apply demand_msg_ok | exact Hlog
         | apply text_ok_prefix; [reflexivity|exact (get_latest_image_exc_ok _ _ _ Eg)]].
      cbn [default]. eexists. rewrite app_assoc. reflexivity.
Qed.

Lemma C6_witness :
  boxe_wants_image (fst (receive_demand (io_ok C_now) (Ok (PDict [("demand", PBool true)])) init_state))
  = default (PBool false) (dict_lookup [("demand", PBool true)] "demand")
  /\ (exists rest,
      files (fst (receive_demand (io_ok C_now) (Ok (PDict [("demand", PBool true)])) init_state))
        !! LOG_FILE
      = Some (default [] (files init_state !! LOG_FILE)
              ++ list_byte_of_string (log_line (io_ok C_now) ("Box-E demand received: " +:+
                   (if truthy (default (PBool false) (dict_lookup [("demand", PBool true)] "demand"))
                    then "YES" else "NO")) +:+ newline)
              ++ rest))
  /\ (forall env' body st', boxe_wants_image (fst (receive_image env' body st'))
                           = boxe_wants_image st')
  /\ (forall env' st', boxe_wants_image (fst (fst (polling_tick env' st')))
                      = boxe_wants_image st')
  /\ (forall env' st', boxe_wants_image (fst (polling_start env' st'))
                      = boxe_wants_image st').
Proof. apply (C6_receive_demand_sets_flag (io_ok C_now) [("demand", PBool true)] init_state). reflexivity. Defined.

(** ** C8: the log view *)



(** ** C9: failures of log_event *)

(** C9 (counterexample): when logs.txt cannot be written, [log_event]
    returns the [OSError] to its caller, and [POST /upload] raises it. *)
Lemma C9_log_failure_surfaces :
  log_event env_log_write_fails "Polling loop started." init_state
  = (init_state, Some (OSError "logs.txt"))
  /\ snd (receive_image env_log_write_fails (Ok (PDict [("image", PStr "aGVsbG8=")])) init_state)
     = Err (OSError "logs.txt").
Proof. vm_compute. auto. Qed.

(** C9 (amended): [log_event] catches nothing: when logs.txt cannot be
    written it neither writes nor prints the line and raises [OSError] to
    its caller; both POST handlers then raise it (from their except
    clause), and so do the polling loop's start and every tick on which it
    logs, which ends the loop thread. *)
Theorem C9_log_failure_propagates (env : io_env) (Hfail : log_write_fails env = true) :
  (forall m st, log_event env m st = (st, Some (OSError "logs.txt")))
  /\ (forall body st, snd (receive_image env body st) = Err (OSError "logs.txt"))
  /\ (forall body st, snd (receive_demand env body st) = Err (OSError "logs.txt"))
  /\ (forall st, polling_start env st = (st, Some (OSError "logs.txt")))
  /\ (forall st, eq_False (boxe_wants_image st) = true ->
        polling_tick env st = (st, [], Some (OSError "logs.txt"))).
Proof.
  split; [intros m st; apply log_event_fail, Hfail|].
  split; [intros body st; apply receive_image_log_fails, Hfail|].
  split; [intros body st; apply receive_demand_log_fails, Hfail|].
  split; [intros st; apply log_event_fail, Hfail|].
  intros st Hf. unfold polling_tick, check_demand_from_boxe. rewrite Hf.
  rewrite log_event_fail by exact Hfail. reflexivity.
Qed.

Lemma C9_witness :
  (forall m st, log_event env_log_write_fails m st = (st, Some (OSError "logs.txt")))
  /\ (forall body st, snd (receive_image env_log_write_fails body st) = Err (OSError "logs.txt"))
  /\ (forall body st, snd (receive_demand env_log_write_fails body st) = Err (OSError "logs.txt"))
  /\ (forall st, polling_start env_log_write_fails st = (st, Some (OSError "logs.txt")))
  /\ (forall st, eq_False (boxe_wants_image st) = true ->
        polling_tick env_log_write_fails st = (st, [], Some (OSError "logs.txt"))).
Proof. apply (C9_log_failure_propagates env_log_write_fails). reflexivity. Defined.

(** * Further properties of the code *)

Module Base64Extra.
Import Base64Facts.

Lemma a2b_quad_tail (b0 b1 b2 : Byte.byte) (rest tail : list Byte.byte) (lc p : Z)
    (acc : list Byte.byte) :
  a2b_loop (b2a_base64 (b0 :: b1 :: b2 :: rest) ++ tail) 0 lc p acc
  = a2b_loop (b2a_base64 rest ++ tail) 0 0 0 (b2 :: b1 :: b0 :: acc).
Proof.
  pose proof (bZ_range b0) as R0. pose proof (bZ_range b1) as R1.
  pose proof (bZ_range b2) as R2.
  cbn [b2a_base64 app].
  change (Z.shiftr (bZ b0) 2) with (s1 (bZ b0)).
  change (Z.lor (Z.shiftl (Z.land (bZ b0) 3) 4) (Z.shiftr (bZ b1) 4)) with (s2 (bZ b0) (bZ b1)).
  change (Z.lor (Z.shiftl (Z.land (bZ b1) 15) 2) (Z.shiftr (bZ b2) 6)) with (s3 (bZ b1) (bZ b2)).
  change (Z.land (bZ b2) 63) with (s4 (bZ b2)).
  pose proof (s1_range _ R0) as T1. pose proof (s2_range _ _ R0 R1) as T2.
  pose proof (s3_range _ _ R1 R2) as T3. pose proof (s4_range _ R2) as T4.
  cbn [a2b_loop].
  rewrite (table_not_pad _ T1), (table_roundtrip _ T1). cbn [Z.eqb].
  rewrite (table_not_pad _ T2), (table_roundtrip _ T2). cbn [Z.eqb].
  rewrite (table_not_pad _ T3), (table_roundtrip _ T3). cbn [Z.eqb].
  rewrite (table_not_pad _ T4), (table_roundtrip _ T4). cbn [Z.eqb].
  rewrite (s2_low _ _ R0 R1), (s3_low _ _ R1 R2).
  rewrite (byte_of_Z_eq _ b0 (out1_ok _ _ R0 R1)).
  rewrite (byte_of_Z_eq _ b1 (out2_ok' _ _ R1 R2)).
  rewrite (byte_of_Z_eq _ b2 (out3_ok _ R2)).
  reflexivity.
Qed.

Lemma a2b_one_tail (b0 : Byte.byte) (tail : list Byte.byte) (lc p : Z)
    (acc : list Byte.byte) :
  a2b_loop (b2a_base64 [b0] ++ tail) 0 lc p acc = Ok (rev acc ++ [b0]).
Proof.
  pose proof (bZ_range b0) as R0.
  cbn [b2a_base64 app].
  change (Z.shiftr (bZ b0) 2) with (s1 (bZ b0)).
  change (Z.shiftl (Z.land (bZ b0) 3) 4) with (s2' (bZ b0)).
  pose proof (s1_range _ R0) as T1. pose proof (s2'_range _ R0) as T2.
  cbn [a2b_loop].
  rewrite (table_not_pad _ T1), (table_roundtrip _ T1). cbn [Z.eqb].
  rewrite (table_not_pad _ T2), (table_roundtrip _ T2). cbn [Z.eqb].
  rewrite (byte_of_Z_eq _ b0 (out1_tail _ R0)).
  reflexivity.
Qed.

Lemma a2b_two_tail (b0 b1 : Byte.byte) (tail : list Byte.byte) (lc p : Z)
    (acc : list Byte.byte) :
  a2b_loop (b2a_base64 [b0; b1] ++ tail) 0 lc p acc = Ok (rev acc ++ [b0; b1]).
Proof.
  pose proof (bZ_range b0) as R0. pose proof (bZ_range b1) as R1.
  cbn [b2a_base64 app].
  change (Z.shiftr (bZ b0) 2) with (s1 (bZ b0)).
  change (Z.lor (Z.shiftl (Z.land (bZ b0) 3) 4) (Z.shiftr (bZ b1) 4)) with (s2 (bZ b0) (bZ b1)).
  change (Z.shiftl (Z.land (bZ b1) 15) 2) with (s3' (bZ b1)).
  pose proof (s1_range _ R0) as T1. pose proof (s2_range _ _ R0 R1) as T2.
  pose proof (s3'_range _ R1) as T3.
  cbn [a2b_loop].
  rewrite (table_not_pad _ T1), (table_roundtrip _ T1). cbn [Z.eqb].
  rewrite (table_not_pad _ T2), (table_roundtrip _ T2). cbn [Z.eqb].
  rewrite (table_not_pad _ T3), (table_roundtrip _ T3). cbn [Z.eqb].
  rewrite (s2_low _ _ R0 R1).
  rewrite (byte_of_Z_eq _ b0 (out1_ok _ _ R0 R1)).
  unfold s3'. rewrite (byte_of_Z_eq _ b1 (out2_ok _ R1)).
  simpl. rewrite <- app_assoc. reflexivity.
Qed.

Lemma a2b_padded_tail (n : nat) (l : list Byte.byte) :
  (length l <= n)%nat -> (length l mod 3 <> 0)%nat ->
  forall (tail acc : list Byte.byte) (lc p : Z),
    a2b_loop (b2a_base64 l ++ tail) 0 lc p acc = Ok (rev acc ++ l).
Proof.
  revert l. induction n as [|n IH]; intros l Hl Hm tail acc lc p.
  - destruct l; [simpl in Hm; lia | simpl in Hl; lia].
  - destruct l as [|b0 [|b1 [|b2 rest]]].
    + simpl in Hm. lia.
    + apply a2b_one_tail.
    + apply a2b_two_tail.
    + rewrite a2b_quad_tail, IH.
      * simpl. rewrite <- !app_assoc. reflexivity.
      * simpl in Hl. lia.
      * cbn [length] in Hm. replace (S (S (S (length rest)))) with (length rest + 1 * 3)%nat in Hm by lia.
        rewrite Nat.Div0.mod_add in Hm. exact Hm.
Qed.

Lemma a2b_loop_skip (c : Byte.byte) (l2 : list Byte.byte)
    (Hpad : Byte.eqb c BASE64_PAD = false) (Hnot : table_a2b_base64 c = None) :
  forall (l1 acc : list Byte.byte) (q lc p : Z),
    a2b_loop (l1 ++ c :: l2) q lc p acc = a2b_loop (l1 ++ l2) q lc p acc.
Proof.
  intros l1. induction l1 as [|x l1 IH]; intros acc q lc p.
  - cbn [app a2b_loop]. rewrite Hpad, Hnot. reflexivity.
  - cbn [app a2b_loop]. repeat case_match; try reflexivity; apply IH.
Qed.

Lemma b2a_length (l : list Byte.byte) :
  length (b2a_base64 l) = (4 * ((length l + 2) / 3))%nat.
Proof.
  induction l as [[|b0 [|b1 [|b2 rest]]] IH] using (induction_ltof1 _ (@length _));
    unfold ltof in IH; try reflexivity.
  cbn [b2a_base64 length]. rewrite IH by (simpl; lia).
  replace (S (S (S (length rest))) + 2)%nat with (1 * 3 + (length rest + 2))%nat by lia.
  rewrite Nat.div_add_l by lia. lia.
Qed.

End Base64Extra.

(** [base64.b64encode] then [base64.b64decode] is the identity, whether
    the encoding is passed back as [bytes] or as a [str]. *)
Theorem X_b64_roundtrip (B : list Byte.byte) :
  b64decode (PBytes (b64encode B)) = Ok B
  /\ b64decode (PStr (string_of_list_byte (b64encode B))) = Ok B.
Proof.
  split; [apply Base64Facts.b64decode_bytes_b64encode
         |apply Base64Facts.b64decode_str_b64encode].
Qed.

(** [base64.b64encode] produces 4 characters per started group of 3
    bytes, all of them ASCII. *)
Theorem X_b64encode_length_ascii (B : list Byte.byte) :
  length (b64encode B) = (4 * ((length B + 2) / 3))%nat
  /\ forallb (fun b => bZ b <? 128) (b64encode B) = true.
Proof. split; [apply Base64Extra.b2a_length | apply Base64Facts.b2a_ascii]. Qed.

(** The non-validating [base64.b64decode] ignores every byte that is
    neither in the base64 alphabet nor the pad '=': inserting one anywhere
    does not change the result (success or error). *)
Theorem X_b64decode_skips_foreign (l1 l2 : list Byte.byte) (c : Byte.byte)
    (Hpad : Byte.eqb c BASE64_PAD = false) (Hnot : table_a2b_base64 c = None) :
  b64decode (PBytes (l1 ++ c :: l2)) = b64decode (PBytes (l1 ++ l2)).
Proof. apply Base64Extra.a2b_loop_skip; assumption. Qed.

Lemma X_b64decode_skips_foreign_witness :
  b64decode (PBytes (list_byte_of_string "aGVs" ++ Byte.x21 :: list_byte_of_string "bG8="))
  = b64decode (PBytes (list_byte_of_string "aGVs" ++ list_byte_of_string "bG8=")).
Proof. apply X_b64decode_skips_foreign; reflexivity. Defined.

(** When the input length is not a multiple of 3, the encoding ends in a
    complete pad sequence, and [base64.b64decode] stops there: whatever
    follows it is ignored. *)
Theorem X_b64decode_ignores_after_padding (B tail : list Byte.byte)
    (Hm : (length B mod 3 <> 0)%nat) :
  b64decode (PBytes (b64encode B ++ tail)) = Ok B.
Proof.
  unfold b64decode, a2b_base64, b64encode.
  rewrite (Base64Extra.a2b_padded_tail (length B)) by (assumption || lia). reflexivity.
Qed.

Lemma X_b64decode_ignores_after_padding_witness :
  b64decode (PBytes (b64encode (list_byte_of_string "hello") ++ list_byte_of_string "junk"))
  = Ok (list_byte_of_string "hello").
Proof. apply X_b64decode_ignores_after_padding. vm_compute. discriminate. Defined.

Module HandlerExtra.

(** A successful upload: the request's image decoded, and that is what
    latest/latest.png now holds. *)
Lemma receive_image_success (env : io_env) (d : list (string * pyval)) (st : state) :
  snd (receive_image env (Ok (PDict d)) st) = Ok (JSONResp 200 upload_ok_body) ->
  exists v B, dict_lookup d "image" = Some v /\ b64decode v = Ok B
    /\ files (fst (receive_image env (Ok (PDict d)) st)) !! LATEST_FILE = Some B.
Proof.
  unfold receive_image. cbn [py_getitem py_get].
  destruct (dict_lookup d "image") as [v|].
  2:{ intros H. exfalso. exact (upload_except_not_ok _ _ _ H). }
  destruct (match dict_lookup d "filename" with Some v0 => Ok v0 | None => Ok (PStr "latest.png") end)
    as [fn|e].
  2:{ intros H. exfalso. exact (upload_except_not_ok _ _ _ H). }
  destruct (b64decode v) as [B|e] eqn:HB.
  2:{ intros H. exfalso. exact (upload_except_not_ok _ _ _ H). }
  unfold write_wb.
  destruct (img_open_fails env).
  { intros H. exfalso. exact (upload_except_not_ok _ _ _ H). }
  destruct (img_write_fails env).
  { intros H. exfalso. exact (upload_except_not_ok _ _ _ H). }
  cbn [fst snd]. rewrite log_event_pair, log_event_raises.
  destruct (log_write_fails env).
  { intros H. exfalso. exact (upload_except_not_ok _ _ _ H). }
  destruct (has_surrogate _).
  { intros H. exfalso. exact (upload_except_not_ok _ _ _ H). }
  intros _. exists v, B. split; [reflexivity|]. split; [exact HB|].
  cbn [fst]. rewrite log_event_other by discriminate.
  cbn. rewrite !lookup_insert_eq. reflexivity.
Qed.

Lemma get_latest_image_local (env : io_env) (st st' : state) :
  files st' !! LATEST_FILE = files st !! LATEST_FILE ->
  get_latest_image env st' = get_latest_image env st.
Proof. intros H. unfold get_latest_image. rewrite H. reflexivity. Qed.

(** logs.txt only grows: it keeps its content as a prefix, or is created. *)
Definition log_extends (st st' : state) : Prop :=
  files st' !! LOG_FILE = files st !! LOG_FILE
  \/ exists suffix, files st' !! LOG_FILE = Some (default [] (files st !! LOG_FILE) ++ suffix).

Lemma log_extends_refl (st : state) : log_extends st st.
Proof. left. reflexivity. Qed.

Lemma log_extends_trans (s1 s2 s3 : state) :
  log_extends s1 s2 -> log_extends s2 s3 -> log_extends s1 s3.
Proof.
  intros [H12|[x H12]] [H23|[y H23]].
  - left. congruence.
  - right. exists y. rewrite H23, H12. reflexivity.
  - right. exists x. congruence.
  - right. exists (x ++ y). rewrite H23, H12. cbn. rewrite app_assoc. reflexivity.
Qed.

Lemma log_extends_same (st st' : state) :
  files st' !! LOG_FILE = files st !! LOG_FILE -> log_extends st st'.
Proof. intros H. left. exact H. Qed.

Lemma log_event_extends (env : io_env) (m : string) (st : state) :
  log_extends st (fst (log_event env m st)).
Proof.
  unfold log_event. destruct (log_write_fails env); [apply log_extends_refl|].
  right. destruct (utf8_encode _) as [b|e];
    cbn [fst files set_files set_console apply_op]; rewrite ?lookup_insert_eq; cbn [default].
  - exists b. reflexivity.
  - exists []. rewrite app_nil_r. reflexivity.
Qed.

Lemma upload_except_extends (env : io_env) (e : exc) (st : state) :
  log_extends st (fst (upload_except env e st)).
Proof. rewrite upload_except_fst. apply log_event_extends. Qed.

Lemma demand_except_extends (env : io_env) (e : exc) (st : state) :
  log_extends st (fst (demand_except env e st)).
Proof. rewrite demand_except_fst. apply log_event_extends. Qed.

Lemma set_files_image_extends (st : state) (fs : gmap string (list Byte.byte)) :
  fs !! LOG_FILE = files st !! LOG_FILE -> log_extends st (set_files fs st).
Proof. intros H. left. exact H. Qed.

Lemma string_of_list_byte_app (a : list Byte.byte) (s : string) :
  string_of_list_byte (a ++ list_byte_of_string s) = string_of_list_byte a +:+ s.
Proof.
  induction a as [|x a IH].
  - cbn. apply string_of_list_byte_of_string.
  - change (String (Ascii.ascii_of_byte x) (string_of_list_byte (a ++ list_byte_of_string s))
            = String (Ascii.ascii_of_byte x) (string_of_list_byte a +:+ s)).
    rewrite IH. reflexivity.
Qed.

Lemma ascii_utf8_check (l : list Byte.byte) (pos : nat) :
  ascii_bytes l = true -> utf8_check l pos = None.
Proof.
  revert pos. induction l as [|x l IH]; intros pos H; [reflexivity|].
  cbn [ascii_bytes forallb] in H. apply andb_true_iff in H as [Hx Hl].
  cbn [utf8_check]. rewrite Hx. apply IH, Hl.
Qed.

Lemma log_line_ascii (env : io_env) (m : string) :
  ascii_bytes (list_byte_of_string m) = true ->
  ascii_bytes (list_byte_of_string (log_line env m +:+ newline)) = true.
Proof.
  intros Hm. unfold log_line. rewrite !ascii_str_app, strftime_ascii, Hm. reflexivity.
Qed.

End HandlerExtra.

Import HandlerExtra.

(** [POST /upload] with a body that is not JSON, or whose [image] cannot
    be looked up ([KeyError] for a missing key, [TypeError] for a JSON
    array, string or scalar), leaves latest/latest.png as it was and,
    when logs.txt can be written, answers [{status:"error", message}]. *)
Theorem X_upload_bad_request (env : io_env) (body : result pyval) (st : state)
    (Hbad : match body with
            | Err e => text_ok (exc_msg e)
            | Ok data => exists e, py_getitem data "image" = Err e
            end) :
  files (fst (receive_image env body st)) !! LATEST_FILE = files st !! LATEST_FILE
  /\ (log_write_fails env = false ->
      exists m, snd (receive_image env body st) = Ok (JSONResp 200 (error_body m))).
Proof.
  unfold receive_image.
  destruct body as [data|e].
  - destruct Hbad as [e He]. rewrite He. split; [apply upload_except_image|].
    intros H. rewrite upload_except_spec by exact (py_getitem_exc_ok _ "image" _ eq_refl He).
    rewrite H. eexists; reflexivity.
  - split; [apply upload_except_image|].
    intros H. rewrite upload_except_spec by exact Hbad. rewrite H. eexists; reflexivity.
Qed.

Lemma X_upload_bad_request_witness :
  files (fst (receive_image (io_ok C_now) (Ok (PDict [("filename", PStr "x.png")])) C4_prior))
    !! LATEST_FILE = files C4_prior !! LATEST_FILE
  /\ (log_write_fails (io_ok C_now) = false ->
      exists m, snd (receive_image (io_ok C_now) (Ok (PDict [("filename", PStr "x.png")])) C4_prior)
                = Ok (JSONResp 200 (error_body m))).
Proof.
  apply X_upload_bad_request. eexists. reflexivity.
Defined.

(** If opening latest/latest.png for writing fails, the previous image is
    kept; if the open succeeds but the write fails, the file has already
    been truncated and is left empty.  Either way the upload answers an
    error, never [status "ok"]. *)
Theorem X_upload_write_failure (env : io_env) (d : list (string * pyval)) (st : state)
    (v : pyval) (B : list Byte.byte)
    (Hv : dict_lookup d "image" = Some v) (HB : b64decode v = Ok B) :
  (img_open_fails env = true ->
     files (fst (receive_image env (Ok (PDict d)) st)) !! LATEST_FILE = files st !! LATEST_FILE
     /\ snd (receive_image env (Ok (PDict d)) st) <> Ok (JSONResp 200 upload_ok_body))
  /\ (img_open_fails env = false -> img_write_fails env = true ->
     files (fst (receive_image env (Ok (PDict d)) st)) !! LATEST_FILE = Some []
     /\ snd (receive_image env (Ok (PDict d)) st) <> Ok (JSONResp 200 upload_ok_body)).
Proof.
  unfold receive_image. cbn [py_getitem py_get]. rewrite Hv, HB.
  destruct (dict_lookup d "filename"); unfold write_wb; split.
  all: first
    [ intros Ho; rewrite Ho; split; [rewrite upload_except_image; reflexivity|];
      apply upload_except_not_ok
    | intros Ho Hw; rewrite Ho, Hw; split; [|apply upload_except_not_ok];
      rewrite upload_except_image; cbn; apply lookup_insert_eq ].
Qed.

Lemma X_upload_write_failure_witness :
  (img_open_fails (mkIo C_now false false false true false) = true ->
     files (fst (receive_image (mkIo C_now false false false true false)
                  (Ok (PDict [("image", PStr "aGVsbG8=")])) C4_prior)) !! LATEST_FILE
     = files C4_prior !! LATEST_FILE
     /\ snd (receive_image (mkIo C_now false false false true false)
                  (Ok (PDict [("image", PStr "aGVsbG8=")])) C4_prior)
        <> Ok (JSONResp 200 upload_ok_body))
  /\ (img_open_fails (mkIo C_now false false false true false) = false ->
      img_write_fails (mkIo C_now false false false true false) = true ->
     files (fst (receive_image (mkIo C_now false false false true false)
                  (Ok (PDict [("image", PStr "aGVsbG8=")])) C4_prior)) !! LATEST_FILE = Some []
     /\ snd (receive_image (mkIo C_now false false false true false)
                  (Ok (PDict [("image", PStr "aGVsbG8=")])) C4_prior)
        <> Ok (JSONResp 200 upload_ok_body)).
Proof.
  apply (X_upload_write_failure _ _ _ (PStr "aGVsbG8=") (list_byte_of_string "hello")).
  - reflexivity.
  - vm_compute. reflexivity.
Defined.

(** After a successful upload, whatever was stored before (last write
    wins): [GET /check] reports [image_available: True], [GET /view-image]
    streams the decoded bytes as image/png and [GET /get-latest-image]
    (when its read does not fail) returns their base64 encoding. *)
Theorem X_upload_then_queries (env env2 : io_env) (d : list (string * pyval)) (st : state)
    (Hok : snd (receive_image env (Ok (PDict d)) st) = Ok (JSONResp 200 upload_ok_body))
    (Hread : img_read_fails env2 = false) :
  exists v B, dict_lookup d "image" = Some v /\ b64decode v = Ok B
  /\ status (fst (receive_image env (Ok (PDict d)) st))
     = Ok (JSONResp 200 (PDict [("status", PStr "running"); ("image_available", PBool true)]))
  /\ view_image (fst (receive_image env (Ok (PDict d)) st)) = Ok (FileResp LATEST_FILE "image/png")
  /\ served_bytes env2 (fst (receive_image env (Ok (PDict d)) st)) (FileResp LATEST_FILE "image/png")
     = Some (Ok B)
  /\ get_latest_image env2 (fst (receive_image env (Ok (PDict d)) st))
     = Ok (JSONResp 200 (PDict [("status", PStr "ok"); ("filename", PStr "latest.png");
                                ("image_base64", PBytes (b64encode B))])).
Proof.
  destruct (receive_image_success env d st Hok) as (v & B & Hv & HB & HF).
  exists v, B. split; [exact Hv|]. split; [exact HB|].
  unfold status, view_image, image_exists, served_bytes, get_latest_image.
  rewrite HF, Hread. auto.
Qed.

Lemma X_upload_then_queries_witness :
  exists v B, dict_lookup [("image", PStr "aGVsbG8=")] "image" = Some v /\ b64decode v = Ok B
  /\ status (fst (receive_image (io_ok C_now) (Ok (PDict [("image", PStr "aGVsbG8=")])) C4_prior))
     = Ok (JSONResp 200 (PDict [("status", PStr "running"); ("image_available", PBool true)]))
  /\ view_image (fst (receive_image (io_ok C_now) (Ok (PDict [("image", PStr "aGVsbG8=")])) C4_prior))
     = Ok (FileResp LATEST_FILE "image/png")
  /\ served_bytes (io_ok C_now)
       (fst (receive_image (io_ok C_now) (Ok (PDict [("image", PStr "aGVsbG8=")])) C4_prior))
       (FileResp LATEST_FILE "image/png") = Some (Ok B)
  /\ get_latest_image (io_ok C_now)
       (fst (receive_image (io_ok C_now) (Ok (PDict [("image", PStr "aGVsbG8=")])) C4_prior))
     = Ok (JSONResp 200 (PDict [("status", PStr "ok"); ("filename", PStr "latest.png");
                                ("image_base64", PBytes (b64encode B))])).
Proof.
  apply X_upload_then_queries.
  - vm_compute. reflexivity.
  - reflexivity.
Defined.

(** [POST /receive-demand] with an object body (and a working log and a
    readable image) answers [{"imgResult": ...}] holding exactly what
    [GET /get-latest-image] answers on the state before the call, whatever
    the demand value, [False] included. *)
Theorem X_demand_returns_image_inline (env : io_env) (d : list (string * pyval)) (st : state)
    (Hlog : log_write_fails env = false) (Hread : img_read_fails env = false) :
  exists r, get_latest_image env st = Ok r
  /\ snd (receive_demand env (Ok (PDict d)) st) = Ok (WrapResp "imgResult" r).
Proof.
  unfold receive_demand. cbn [py_get].
  replace (match dict_lookup d "demand" with Some v => Ok v | None => Ok (PBool false) end)
    with (@Ok pyval (default (PBool false) (dict_lookup d "demand")))
    by (destruct (dict_lookup d "demand"); reflexivity).
  rewrite log_event_pair, log_event_raises, Hlog, demand_msg_ok.
  match goal with
  | |- context [get_latest_image env (fst (log_event env ?m ?s))] =>
      rewrite (get_latest_image_local env st (fst (log_event env m s)))
        by (rewrite log_event_other by discriminate; reflexivity)
  end.
  unfold get_latest_image. rewrite Hread.
  destruct (files st !! LATEST_FILE); eexists; split; reflexivity.
Qed.

Lemma X_demand_returns_image_inline_witness :
  exists r, get_latest_image (io_ok C_now) C4_prior = Ok r
  /\ snd (receive_demand (io_ok C_now) (Ok (PDict [("demand", PBool false)])) C4_prior)
     = Ok (WrapResp "imgResult" r).
Proof. apply X_demand_returns_image_inline; reflexivity. Defined.

(** [POST /receive-demand] writes no file except logs.txt, whatever the
    body and whatever fails: the stored image in particular is untouched. *)
Theorem X_demand_file_footprint (env : io_env) (body : result pyval) (st : state) :
  forall p, p <> LOG_FILE ->
  files (fst (receive_demand env body st)) !! p = files st !! p.
Proof.
  intros p Hp.
  assert (Hx : forall e st0, files (fst (demand_except env e st0)) !! p = files st0 !! p).
  { intros e st0. rewrite demand_except_fst. apply log_event_other, Hp. }
  unfold receive_demand.
  destruct body as [data|e]; [|apply Hx].
  destruct (py_get data "demand" (PBool false)) as [v|e]; [|apply Hx].
  rewrite log_event_pair.
  destruct (snd (log_event _ _ _)).
  - rewrite Hx, log_event_other by exact Hp. reflexivity.
  - destruct (get_latest_image _ _); cbn [fst]; [|rewrite Hx];
      rewrite log_event_other by exact Hp; reflexivity.
Qed.

Lemma X_demand_file_footprint_witness :
  LATEST_FILE <> LOG_FILE
  /\ files (fst (receive_demand (io_ok C_now) (Ok (PDict [("demand", PBool true)])) C4_prior))
       !! LATEST_FILE = files C4_prior !! LATEST_FILE.
Proof. split; [discriminate|apply X_demand_file_footprint; discriminate]. Defined.

(** [POST /receive-demand] with a body that is not JSON, or is a JSON
    array, string or scalar ([data.get] raises [AttributeError]), leaves
    the demand flag unchanged and, when logs.txt can be written, answers
    [{status:"error", message}]. *)
Theorem X_demand_non_object_body (env : io_env) (body : result pyval) (st : state)
    (Hbad : match body with
            | Ok (PDict _) => False
            | Ok _ => True
            | Err e => text_ok (exc_msg e)
            end) :
  boxe_wants_image (fst (receive_demand env body st)) = boxe_wants_image st
  /\ (log_write_fails env = false ->
      exists m, snd (receive_demand env body st) = Ok (JSONResp 200 (error_body m))).
Proof.
  unfold receive_demand.
  destruct body as [data|e].
  - destruct data; try contradiction; cbn [py_get];
      (split; [rewrite demand_except_fst; apply log_event_flag
              |intros H; rewrite demand_except_spec by text_ok_tac; rewrite H;
               eexists; reflexivity]).
  - split; [rewrite demand_except_fst; apply log_event_flag
           |intros H; rewrite demand_except_spec by exact Hbad; rewrite H; eexists; reflexivity].
Qed.

Lemma X_demand_non_object_body_witness :
  boxe_wants_image (fst (receive_demand (io_ok C_now) (Ok (PList [PBool true])) C1_state))
  = boxe_wants_image C1_state
  /\ (log_write_fails (io_ok C_now) = false ->
      exists m, snd (receive_demand (io_ok C_now) (Ok (PList [PBool true])) C1_state)
                = Ok (JSONResp 200 (error_body m))).
Proof. apply X_demand_non_object_body. exact I. Defined.

(** logs.txt is append-only: every state-changing operation (upload,
    demand notification, polling-loop start and tick) keeps its previous
    content as a prefix (or keeps it absent, or creates it). *)
Theorem X_log_append_only :
  (forall env body st, log_extends st (fst (receive_image env body st)))
  /\ (forall env body st, log_extends st (fst (receive_demand env body st)))
  /\ (forall env st, log_extends st (fst (polling_start env st)))
  /\ (forall env st, log_extends st (fst (fst (polling_tick env st)))).
Proof.
  split; [|split; [|split]].
  - intros env body st. unfold receive_image.
    destruct body as [data|e]; [|apply upload_except_extends].
    destruct (py_getitem data "image") as [v|e]; [|apply upload_except_extends].
    destruct (py_get data "filename" (PStr "latest.png")) as [fn|e]; [|apply upload_except_extends].
    destruct (b64decode v) as [b|e]; [|apply upload_except_extends].
    unfold write_wb.
    assert (Hw : forall fs, fs !! LOG_FILE = files st !! LOG_FILE ->
                 log_extends st (set_files fs st)) by (intros; left; assumption).
    destruct (img_open_fails env).
    { eapply log_extends_trans; [apply Hw; reflexivity|apply upload_except_extends]. }
    destruct (img_write_fails env).
    + eapply log_extends_trans; [apply Hw|apply upload_except_extends].
      cbn. rewrite lookup_insert_ne by discriminate. reflexivity.
    + assert (H1 : log_extends st (set_files (fold_left apply_op
                     (write_image_ops LATEST_FILE b) (files st)) st)).
      { apply Hw. cbn. rewrite !lookup_insert_ne by discriminate. reflexivity. }
      rewrite log_event_pair. destruct (snd (log_event _ _ _)).
      * eapply log_extends_trans; [exact H1|].
        eapply log_extends_trans; [apply log_event_extends|apply upload_except_extends].
      * cbn [fst]. eapply log_extends_trans; [exact H1|apply log_event_extends].
  - intros env body st. unfold receive_demand.
    destruct body as [data|e]; [|apply demand_except_extends].
    destruct (py_get data "demand" (PBool false)) as [v|e]; [|apply demand_except_extends].
    assert (H1 : log_extends st (set_boxe_wants_image v st)) by (left; reflexivity).
    rewrite log_event_pair. destruct (snd (log_event _ _ _)).
    + eapply log_extends_trans; [exact H1|].
      eapply log_extends_trans; [apply log_event_extends|apply demand_except_extends].
    + destruct (get_latest_image _ _); cbn [fst].
      * eapply log_extends_trans; [exact H1|apply log_event_extends].
      * eapply log_extends_trans; [exact H1|].
        eapply log_extends_trans; [apply log_event_extends|apply demand_except_extends].
  - intros env st. apply log_event_extends.
  - intros env st. unfold polling_tick.
    destruct (eq_False _); [|apply log_extends_refl].
    rewrite log_event_pair. apply log_event_extends.
Qed.

(** When logs.txt and the message are ASCII, [GET /view-logs] after a
    successful [log_event] returns the earlier log text followed by the
    new line "[<timestamp>] <message>" and a newline, read with universal
    newlines. *)
Theorem X_view_logs_after_log_event (env : io_env) (m : string) (st : state)
    (Hw : log_write_fails env = false) (Hr : log_read_fails env = false)
    (Hold : ascii_bytes (default [] (files st !! LOG_FILE)) = true)
    (Hm : ascii_bytes (list_byte_of_string m) = true) :
  view_logs env (fst (log_event env m st))
  = Ok (TextResp (universal_newlines (string_of_list_byte (default [] (files st !! LOG_FILE))
                  +:+ log_line env m +:+ newline))).
Proof.
  unfold view_logs. rewrite log_event_ok by (exact Hw || exact (text_ok_ascii _ Hm)).
  rewrite Hr. unfold utf8_decode. rewrite ascii_utf8_check.
  - rewrite string_of_list_byte_app. reflexivity.
  - rewrite ascii_bytes_app, Hold, log_line_ascii by exact Hm. reflexivity.
Qed.

Lemma X_view_logs_after_log_event_witness :
  view_logs (io_ok C_now) (fst (log_event (io_ok C_now) "Polling loop started." C2_logged))
  = Ok (TextResp (universal_newlines (string_of_list_byte (default [] (files C2_logged !! LOG_FILE))
                  +:+ log_line (io_ok C_now) "Polling loop started." +:+ newline))).
Proof. apply X_view_logs_after_log_event; reflexivity. Defined.

(** A polling-loop tick (with a working log) writes to logs.txt exactly
    when the flag [== False], i.e. is [False] or [0]; for any other flag
    value ([True], but also [None], [""] or [[]], which
    [/receive-demand] logs as "NO") the tick is a complete no-op. *)
Theorem X_tick_logs_iff_eq_False (env : io_env) (st : state)
    (Hlog : log_write_fails env = false) :
  (files (fst (fst (polling_tick env st))) !! LOG_FILE <> files st !! LOG_FILE
   <-> eq_False (boxe_wants_image st) = true)
  /\ (eq_False (boxe_wants_image st) = false -> polling_tick env st = (st, [], None)).
Proof.
  unfold polling_tick, check_demand_from_boxe.
  destruct (eq_False (boxe_wants_image st)) eqn:E.
  - rewrite log_event_pair. cbn [fst]. rewrite log_event_ok by (exact Hlog || text_ok_tac).
    split; [split; [reflexivity|intros _]|discriminate].
    destruct (files st !! LOG_FILE) as [c|]; [|discriminate].
    intros H. injection H as H. cbn in H.
    apply (f_equal (@length Byte.byte)) in H. rewrite length_app in H.
    unfold list_byte_of_string in H. rewrite length_map in H.
    unfold log_line in H. simpl in H. lia.
  - split; [split; [intros H; exfalso; apply H; reflexivity|discriminate]|].
    intros _. reflexivity.
Qed.

Lemma X_tick_logs_iff_eq_False_witness :
  (files (fst (fst (polling_tick (io_ok C_now) C2_logged))) !! LOG_FILE <> files C2_logged !! LOG_FILE
   <-> eq_False (boxe_wants_image C2_logged) = true)
  /\ (eq_False (boxe_wants_image C2_logged) = false ->
      polling_tick (io_ok C_now) C2_logged = (C2_logged, [], None)).
Proof. apply X_tick_logs_iff_eq_False. reflexivity. Defined.
